(** * vite-plugin-fs: the GET router of the dev-time filesystem relay

    A shallow embedding of [src/server/requests/get.ts].  The module exports
    [createRoutes], which closes three readers ([readIfFile], [readIfDir],
    [statIfSupported]) and one koa middleware over a path resolver.  The
    middleware stats the resolved path, dispatches on [ctx.query.command],
    and writes [ctx.status] and [ctx.body].

    Asynchronous code is modelled by the way its promise settles; the koa
    context is threaded explicitly through a small state-and-exception
    monad, so that [try]/[catch] and the two assignments to [ctx] read as
    they do in the source. *)

From Stdlib Require Import ZArith List.
From Stdlib.Strings Require Import Byte String.
From stdpp Require Import base option strings list gmap.

Local Open Scope Z_scope.
Local Open Scope string_scope.

(** ** JavaScript values seen by the router *)

(** The value that a settled, rejected promise carries.  The router only
    ever looks at [err.code], which is a string on Node's system errors and
    [undefined] on anything else. *)
Record JSError := mkError { err_code : option string }.

(** [err.code === 'lit'] *)
Definition codeIs (err : JSError) (lit : string) : bool :=
  match err_code err with
  | Some c => String.eqb c lit
  | None => false
  end.

(** An awaited promise, identified with its settlement. *)
Inductive Promise (A : Type) : Type :=
| Fulfilled (a : A)
| Rejected (e : JSError).
Arguments Fulfilled {A} a.
Arguments Rejected {A} e.

Definition resolve {A : Type} (a : A) : Promise A := Fulfilled a.

(** Sequencing inside an [async] function: a rejected [await] rejects the
    function's own promise. *)
Definition andThen {A B : Type} (p : Promise A) (k : A -> Promise B) : Promise B :=
  match p with
  | Fulfilled a => k a
  | Rejected e => Rejected e
  end.

Declare Scope promise_scope.
Delimit Scope promise_scope with promise.
Notation "x <~ p ;; k" := (andThen p (fun x => k))
  (at level 20, p at level 99, k at level 200, only parsing) : promise_scope.

(** Property values of plain objects.  Numbers are kept as integers: the
    router copies them and never computes with them. *)
Inductive JSValue : Type :=
| JSBoolean (b : bool)
| JSNumber (n : Z)
| JSString (s : string).

(** A value of [ctx.query.command]: koa hands over [undefined] when the
    parameter is missing, a string when it occurs once and an array of
    strings when it is repeated. *)
Inductive QueryValue : Type :=
| QUndefined
| QString (s : string)
| QArray (l : list string).

(** [if (v)]: the empty string and [undefined] are falsy, every array is
    truthy. *)
Definition truthy (v : QueryValue) : bool :=
  match v with
  | QUndefined => false
  | QString s => negb (String.eqb s "")
  | QArray _ => true
  end.

(** [v === 'lit']: strict equality with a string literal. *)
Definition strictEq (v : QueryValue) (lit : string) : bool :=
  match v with
  | QString s => String.eqb s lit
  | _ => false
  end.

(** [v.toString()] on a string or an array of strings.  The router calls it
    under the truthiness test only, so never on [undefined]. *)
Definition toString (v : QueryValue) : string :=
  match v with
  | QUndefined => "undefined"
  | QString s => s
  | QArray l => String.concat "," l
  end.

(** ** Node's filesystem interface *)

(** Modelled from the spec: Node's [fs.Stats] and [fs.Dirent] classes are
    not part of the repository.  Both classify an object by one type tag,
    which their [isFile()] and [isDirectory()] methods test; the spec speaks
    of regular files, directories and other object types (sockets and the
    like). *)
Inductive FileType : Type :=
| TUnknown | TFile | TDir | TLink | TFifo | TSocket | TChar | TBlock.

Definition Buffer := list byte.

(** [stats_own] holds the own enumerable properties of the object (size,
    mode, timestamps, ...): what an object spread copies. *)
Record Stats := mkStats {
  stats_type : FileType;
  stats_own : gmap string JSValue
}.

Record Dirent := mkDirent {
  dirent_name : string;
  dirent_type : FileType
}.

Definition is_file (t : FileType) : bool :=
  match t with TFile => true | _ => false end.
Definition is_directory (t : FileType) : bool :=
  match t with TDir => true | _ => false end.

Module StatsMethods.
Definition isFile (s : Stats) : bool := is_file (stats_type s).
Definition isDirectory (s : Stats) : bool := is_directory (stats_type s).
End StatsMethods.

Module DirentMethods.
Definition isFile (d : Dirent) : bool := is_file (dirent_type d).
Definition isDirectory (d : Dirent) : bool := is_directory (dirent_type d).
End DirentMethods.

(** The four calls the router makes on [fs/promises]; [readdirWithFileTypes]
    is [readdir(path, { withFileTypes: true })]. *)
Record FileSystem := mkFs {
  stat : string -> Promise Stats;
  readFile : string -> Promise Buffer;
  readdir : string -> Promise (list string);
  readdirWithFileTypes : string -> Promise (list Dirent)
}.

(** ** Response types *)

Record FileResponse := mkFileResponse { data : Buffer }.

Record SimpleDirent := mkSimpleDirent { name : string; dir : bool }.

(** [items: string[] | SimpleDirent[]] *)
Inductive DirItem : Type :=
| NameItem (s : string)
| DirentItem (d : SimpleDirent).

Record DirResponse := mkDirResponse { items : list DirItem }.

(** [SimpleStats = Stats & { dir: boolean }], at run time a plain object. *)
Record StatResponse := mkStatResponse { stats : gmap string JSValue }.

Record ErrorResponse := mkErrorResponse { code : Z; message : option string }.

Inductive ApiResponse : Type :=
| File (r : FileResponse)
| Dir (r : DirResponse)
| Stat (r : StatResponse)
| Error (r : ErrorResponse).

(** The string discriminant of the union. *)
Definition type (r : ApiResponse) : string :=
  match r with
  | File _ => "file"
  | Dir _ => "dir"
  | Stat _ => "stats"
  | Error _ => "error"
  end.

(** ** The koa context *)

Inductive Body : Type :=
| BodyUndefined
| BodyObject (r : ApiResponse)
| BodyText (s : string).

Record Context := mkContext {
  ctx_path : string;
  ctx_query_command : QueryValue;
  ctx_status : Z;
  ctx_body : Body
}.

(** A middleware step: it may read and assign the context, and its promise
    is fulfilled or rejected. *)
Definition Koa (A : Type) : Type := Context -> Promise A * Context.

Definition ret {A : Type} (a : A) : Koa A := fun ctx => (Fulfilled a, ctx).

Definition bind {A B : Type} (m : Koa A) (k : A -> Koa B) : Koa B :=
  fun ctx =>
    match m ctx with
    | (Fulfilled a, ctx') => k a ctx'
    | (Rejected e, ctx') => (Rejected e, ctx')
    end.

(** [await p] *)
Definition await {A : Type} (p : Promise A) : Koa A := fun ctx => (p, ctx).

(** [try { m } catch (err) { h err }]: assignments made before the throw
    stay. *)
Definition tryCatch {A : Type} (m : Koa A) (h : JSError -> Koa A) : Koa A :=
  fun ctx =>
    match m ctx with
    | (Fulfilled a, ctx') => (Fulfilled a, ctx')
    | (Rejected e, ctx') => h e ctx'
    end.

Definition getPath : Koa string := fun ctx => (Fulfilled (ctx_path ctx), ctx).

Definition getQueryCommand : Koa QueryValue :=
  fun ctx => (Fulfilled (ctx_query_command ctx), ctx).

(** [ctx.status = n] *)
Definition setStatus (n : Z) : Koa unit :=
  fun ctx =>
    (Fulfilled tt,
     {| ctx_path := ctx_path ctx; ctx_query_command := ctx_query_command ctx;
        ctx_status := n; ctx_body := ctx_body ctx |}).

(** [ctx.body = b] *)
Definition setBody (b : Body) : Koa unit :=
  fun ctx =>
    (Fulfilled tt,
     {| ctx_path := ctx_path ctx; ctx_query_command := ctx_query_command ctx;
        ctx_status := ctx_status ctx; ctx_body := b |}).

Declare Scope koa_scope.
Delimit Scope koa_scope with koa.
Notation "x <- m ;; k" := (bind m (fun x => k))
  (at level 20, m at level 99, k at level 200, only parsing) : koa_scope.
Notation "m ;; k" := (bind m (fun _ => k))
  (at level 100, k at level 200, only parsing, right associativity) : koa_scope.

(** ** createRoutes *)

Section CreateRoutes.

Variable fs : FileSystem.
Variable resolvePath : string -> string.

(** *** Readers *)

Definition readIfFile (path : string) (stats : Stats)
  : Promise (option FileResponse) :=
  (if StatsMethods.isFile stats then
     data <~ readFile fs path ;;
     resolve (Some {| data := data |})
   else
     resolve None)%promise.

(** One turn of the [dirents.forEach] callback: [items.push] appends. *)
Definition pushIfSupported (items : list DirItem) (dirent : Dirent)
  : list DirItem :=
  let simpleDirent :=
    {| name := dirent_name dirent; dir := DirentMethods.isDirectory dirent |} in
  if DirentMethods.isFile dirent || DirentMethods.isDirectory dirent
  then (items ++ [DirentItem simpleDirent])%list
  else items.

Definition readIfDir (path : string) (stats : Stats) (detailed : bool)
  : Promise (option DirResponse) :=
  (if StatsMethods.isDirectory stats then
     items <~ (if negb detailed then
                 names <~ readdir fs path ;;
                 resolve (map NameItem names)
               else
                 dirents <~ readdirWithFileTypes fs path ;;
                 resolve (fold_left pushIfSupported dirents [])) ;;
     resolve (Some {| items := items |})
   else
     resolve None)%promise.

Definition statIfSupported (stats : Stats) : option StatResponse :=
  if StatsMethods.isFile stats || StatsMethods.isDirectory stats then
    let simpleStats :=
      <["dir" := JSBoolean (StatsMethods.isDirectory stats)]> (stats_own stats) in
    Some {| stats := simpleStats |}
  else
    None.

(** *** Get request routing *)

(** The callback of [router.get(/.*/, ...)], cut in three where the source
    has its comments: [generateResponse] is the dispatch on
    [ctx.query.command] (lines 117-141), [sendResponse] the translation of
    the response into status and body (lines 143-156), and [handler] the
    whole, with the stat and the [try]/[catch] around them. *)

(** Lines 117-141: the response chosen once [fs.stat] has succeeded. *)
Definition generateResponse (path : string) (stats : Stats)
  : Koa (option ApiResponse) :=
  (command <- getQueryCommand ;;
   if truthy command then
     if strictEq command "readfile" then
       r <- await (readIfFile path stats) ;; ret (File <$> r)
     else if strictEq command "readdir" then
       r <- await (readIfDir path stats false) ;; ret (Dir <$> r)
     else if strictEq command "readdir-detailed" then
       r <- await (readIfDir path stats true) ;; ret (Dir <$> r)
     else if strictEq command "stat" then
       ret (Stat <$> statIfSupported stats)
     else
       ret (Some (Error {| code := 500;
                           message := Some ("Unknown command " +:+ toString command) |}))
   else
     r <- await (readIfFile path stats) ;;
     match r with
     | Some f => ret (Some (File f))
     | None => d <- await (readIfDir path stats false) ;; ret (Dir <$> d)
     end)%koa.

(** Lines 143-156: from the response to status and body.  The test
    [response.type !== 'error'] is the match on the variant. *)
Definition sendResponse (response : option ApiResponse) : Koa unit :=
  (match response with
   | Some response =>
       match response with
       | File _ | Dir _ | Stat _ =>
           setStatus 200 ;;
           setBody (BodyObject response)
       | Error e =>
           setStatus (code e) ;;
           setBody (match message e with
                    | Some m => BodyText m
                    | None => BodyUndefined
                    end)
       end
   | None =>
       setStatus 500
   end)%koa.

Definition handler : Koa unit :=
  (ctxPath <- getPath ;;
   let path := resolvePath ctxPath in
   tryCatch
     (stats <- await (stat fs path) ;;
      response <- generateResponse path stats ;;
      sendResponse response)
     (fun err =>
        if codeIs err "ENOENT"
        then setStatus 404
        else setStatus 500))%koa.

Definition createRoutes : Context -> Promise unit * Context := handler.

End CreateRoutes.

(** ** Observing one request *)

(** The context once the middleware has run, and the way its promise
    settled. *)
Definition after (fs : FileSystem) (resolvePath : string -> string)
  (ctx : Context) : Context :=
  (createRoutes fs resolvePath ctx).2.

Definition settlement (fs : FileSystem) (resolvePath : string -> string)
  (ctx : Context) : Promise unit :=
  (createRoutes fs resolvePath ctx).1.

(** What the [catch] block leaves behind. *)
Definition caught (e : JSError) (ctx : Context) : Promise unit * Context :=
  (if codeIs e "ENOENT" then setStatus 404 else setStatus 500) ctx.

(** The same request with another [command] parameter. *)
Definition withCommand (ctx : Context) (command : QueryValue) : Context :=
  {| ctx_path := ctx_path ctx; ctx_query_command := command;
     ctx_status := ctx_status ctx; ctx_body := ctx_body ctx |}.

(** Two requests are answered alike: same settlement, status and body. *)
Definition sameOutcome (fs : FileSystem) (resolvePath : string -> string)
  (ctx1 ctx2 : Context) : Prop :=
  settlement fs resolvePath ctx1 = settlement fs resolvePath ctx2 /\
  ctx_status (after fs resolvePath ctx1) = ctx_status (after fs resolvePath ctx2) /\
  ctx_body (after fs resolvePath ctx1) = ctx_body (after fs resolvePath ctx2).

(** The four commands the router knows. *)
Definition knownCommand (c : string) : Prop :=
  c = "readfile" \/ c = "readdir" \/ c = "readdir-detailed" \/ c = "stat".

(** What the detailed listing is said to hold: the entries that are a plain
    file or a plain directory, each as its name and directory flag, in
    listing order. *)
Definition simpleDirentOf (d : Dirent) : SimpleDirent :=
  {| name := dirent_name d; dir := DirentMethods.isDirectory d |}.

Definition supportedEntries (dirents : list Dirent) : list DirItem :=
  map (fun d => DirentItem (simpleDirentOf d))
      (List.filter (fun d => DirentMethods.isFile d || DirentMethods.isDirectory d)
                   dirents).

(** An error raised by the read or list call that the command selects, after
    a successful stat. *)
Inductive ReadStepFails (fs : FileSystem) (path : string) (s : Stats)
  (command : QueryValue) (e : JSError) : Prop :=
| FileReadFails :
    truthy command = false \/ command = QString "readfile" ->
    StatsMethods.isFile s = true ->
    readFile fs path = Rejected e ->
    ReadStepFails fs path s command e
| ListFails :
    truthy command = false \/ command = QString "readdir" ->
    StatsMethods.isDirectory s = true ->
    readdir fs path = Rejected e ->
    ReadStepFails fs path s command e
| DetailedListFails :
    command = QString "readdir-detailed" ->
    StatsMethods.isDirectory s = true ->
    readdirWithFileTypes fs path = Rejected e ->
    ReadStepFails fs path s command e.

(** The command does not apply to the type of the path. *)
Definition Inapplicable (command : QueryValue) (s : Stats) : Prop :=
  (truthy command = false /\
   StatsMethods.isFile s = false /\ StatsMethods.isDirectory s = false) \/
  (command = QString "readfile" /\ StatsMethods.isFile s = false) \/
  ((command = QString "readdir" \/ command = QString "readdir-detailed") /\
   StatsMethods.isDirectory s = false) \/
  (command = QString "stat" /\
   StatsMethods.isFile s = false /\ StatsMethods.isDirectory s = false).

(** The command is present and is none of the four. *)
Definition unknownCommand (command : QueryValue) : Prop :=
  truthy command = true /\ forall c, knownCommand c -> command <> QString c.

(** The answers a request can get, by cause: the status, and the body that
    is found on a context that arrived with body [b0]. *)
Inductive Answer (fs : FileSystem) (path : string) (command : QueryValue)
  (b0 : Body) : Z -> Body -> Prop :=
| AnswerEnvelope s r :
    stat fs path = Fulfilled s ->
    type r <> "error" ->
    Answer fs path command b0 200 (BodyObject r)
| AnswerNotFound e :
    err_code e = Some "ENOENT" ->
    stat fs path = Rejected e \/
    (exists s, stat fs path = Fulfilled s /\ ReadStepFails fs path s command e) ->
    Answer fs path command b0 404 b0
| AnswerFailure e :
    err_code e <> Some "ENOENT" ->
    stat fs path = Rejected e \/
    (exists s, stat fs path = Fulfilled s /\ ReadStepFails fs path s command e) ->
    Answer fs path command b0 500 b0
| AnswerInapplicable s :
    stat fs path = Fulfilled s ->
    Inapplicable command s ->
    Answer fs path command b0 500 b0
| AnswerUnknownCommand s :
    stat fs path = Fulfilled s ->
    unknownCommand command ->
    Answer fs path command b0 500
           (BodyText ("Unknown command " +:+ toString command)).

(** ** A sample tree *)

Module Sample.

Definition enoent : JSError := mkError (Some "ENOENT").
Definition eacces : JSError := mkError (Some "EACCES").
Definition eisdir : JSError := mkError (Some "EISDIR").
Definition enotdir : JSError := mkError (Some "ENOTDIR").

Definition fileStats : Stats :=
  mkStats TFile {[ "mode" := JSNumber 33188; "size" := JSNumber 2 ]}.
Definition dirStats : Stats :=
  mkStats TDir {[ "mode" := JSNumber 16877; "size" := JSNumber 4096 ]}.
Definition socketStats : Stats :=
  mkStats TSocket {[ "mode" := JSNumber 49645; "size" := JSNumber 0 ]}.

Definition hi : Buffer := [x68; x69]%byte.

Definition listing : list Dirent :=
  [ mkDirent "a.txt" TFile; mkDirent "latest" TLink; mkDirent "sub" TDir;
    mkDirent "ctl.sock" TSocket ].

(** [/srv/a.txt] is a file, [/srv/docs] a directory, [/srv/ctl.sock] a
    socket; [/srv/secret.txt] is a file that cannot be opened,
    [/srv/tmp.txt] one that has gone by the time it is read, and
    [/srv/private] cannot even be statted.  Nothing else exists. *)
Definition fs : FileSystem :=
  {| stat p :=
       if String.eqb p "/srv/a.txt" then Fulfilled fileStats
       else if String.eqb p "/srv/secret.txt" then Fulfilled fileStats
       else if String.eqb p "/srv/tmp.txt" then Fulfilled fileStats
       else if String.eqb p "/srv/docs" then Fulfilled dirStats
       else if String.eqb p "/srv/ctl.sock" then Fulfilled socketStats
       else if String.eqb p "/srv/private" then Rejected eacces
       else Rejected enoent;
     readFile p :=
       if String.eqb p "/srv/a.txt" then Fulfilled hi
       else if String.eqb p "/srv/secret.txt" then Rejected eacces
       else if String.eqb p "/srv/docs" then Rejected eisdir
       else Rejected enoent;
     readdir p :=
       if String.eqb p "/srv/docs" then Fulfilled (map dirent_name listing)
       else if String.eqb p "/srv/a.txt" then Rejected enotdir
       else Rejected enoent;
     readdirWithFileTypes p :=
       if String.eqb p "/srv/docs" then Fulfilled listing
       else if String.eqb p "/srv/a.txt" then Rejected enotdir
       else Rejected enoent |}.

Definition resolvePath (p : string) : string := "/srv" +:+ p.

(** A request as it reaches the router: koa's default status, no body. *)
Definition request (p : string) (command : QueryValue) : Context :=
  {| ctx_path := p; ctx_query_command := command;
     ctx_status := 404; ctx_body := BodyUndefined |}.

End Sample.

(** ** Comparing filesystems and listings *)

(** Two filesystems answer the four calls alike at one path. *)
Definition agreeAt (fs fs' : FileSystem) (path : string) : Prop :=
  stat fs path = stat fs' path /\
  readFile fs path = readFile fs' path /\
  readdir fs path = readdir fs' path /\
  readdirWithFileTypes fs path = readdirWithFileTypes fs' path.

(** The name an item of a directory envelope carries. *)
Definition itemName (item : DirItem) : string :=
  match item with
  | NameItem n => n
  | DirentItem d => name d
  end.

(** Whether [readdir-detailed] keeps an entry. *)
Definition supported (d : Dirent) : bool :=
  DirentMethods.isFile d || DirentMethods.isDirectory d.

(** Variants of the sample tree. *)
Module Variant.

(** Only [/srv/a.txt] is left of the sample tree. *)
Definition onlyFile : FileSystem :=
  {| stat p :=
       if String.eqb p "/srv/a.txt" then Fulfilled Sample.fileStats
       else Rejected Sample.enoent;
     readFile p :=
       if String.eqb p "/srv/a.txt" then Fulfilled Sample.hi
       else Rejected Sample.enoent;
     readdir p :=
       if String.eqb p "/srv/a.txt" then Rejected Sample.enotdir
       else Rejected Sample.enoent;
     readdirWithFileTypes p :=
       if String.eqb p "/srv/a.txt" then Rejected Sample.enotdir
       else Rejected Sample.enoent |}.

(** The sample tree with every read and listing refused. *)
Definition unreadable : FileSystem :=
  {| stat := stat Sample.fs;
     readFile _ := Rejected Sample.eacces;
     readdir _ := Rejected Sample.eacces;
     readdirWithFileTypes _ := Rejected Sample.eacces |}.

(** The sample tree with every listing refused. *)
Definition unlistable : FileSystem :=
  {| stat := stat Sample.fs;
     readFile := readFile Sample.fs;
     readdir _ := Rejected Sample.eacces;
     readdirWithFileTypes _ := Rejected Sample.eacces |}.

(** A request that reaches the router with a status and a body already
    set. *)
Definition touched (p : string) (command : QueryValue) : Context :=
  {| ctx_path := p; ctx_query_command := command;
     ctx_status := 204; ctx_body := BodyText "earlier" |}.

End Variant.

(** * Properties of the router *)

(** ** Types are exclusive, commands are told apart *)

Lemma isDirectory_not_isFile (s : Stats) :
  StatsMethods.isDirectory s = true -> StatsMethods.isFile s = false.
Proof.
  unfold StatsMethods.isDirectory, StatsMethods.isFile.
  destruct (stats_type s); simpl; congruence.
Qed.

Lemma isFile_not_isDirectory (s : Stats) :
  StatsMethods.isFile s = true -> StatsMethods.isDirectory s = false.
Proof.
  unfold StatsMethods.isDirectory, StatsMethods.isFile.
  destruct (stats_type s); simpl; congruence.
Qed.

Lemma truthy_QString (c : string) : truthy (QString c) = true <-> c <> "".
Proof.
  simpl. destruct (String.eqb_spec c ""); simpl; split; congruence.
Qed.

Lemma strictEq_true (v : QueryValue) (lit : string) :
  strictEq v lit = true <-> v = QString lit.
Proof.
  destruct v as [|c|l]; simpl; split; try congruence.
  - intros H. apply String.eqb_eq in H. congruence.
  - intros [= ->]. apply String.eqb_refl.
Qed.

Lemma strictEq_false (v : QueryValue) (lit : string) :
  strictEq v lit = false <-> v <> QString lit.
Proof.
  rewrite <- strictEq_true. destruct (strictEq v lit); split; congruence.
Qed.

(** ** The shape of one run *)

Section Run.

Variable fs : FileSystem.
Variable resolvePath : string -> string.

Implicit Types (ctx : Context) (s : Stats) (e : JSError).

Lemma caught_settles e ctx : (caught e ctx).1 = Fulfilled tt.
Proof. unfold caught. destruct (codeIs e "ENOENT"); reflexivity. Qed.

Lemma caught_status e ctx :
  ctx_status (caught e ctx).2 = if codeIs e "ENOENT" then 404 else 500.
Proof. unfold caught. destruct (codeIs e "ENOENT"); reflexivity. Qed.

Lemma caught_body e ctx : ctx_body (caught e ctx).2 = ctx_body ctx.
Proof. unfold caught. destruct (codeIs e "ENOENT"); reflexivity. Qed.

(** Choosing the response reads the context and leaves it as it is. *)
Lemma generateResponse_ctx path s ctx :
  (generateResponse fs path s ctx).2 = ctx.
Proof.
  unfold generateResponse, bind, getQueryCommand, await, ret.
  repeat match goal with
         | |- context [if ?b then _ else _] => destruct b
         | |- context [match ?p with Fulfilled _ => _ | Rejected _ => _ end] =>
             destruct p
         | |- context [match ?o with Some _ => _ | None => _ end] => destruct o
         end; reflexivity.
Qed.

Lemma createRoutes_stat_rejected ctx e :
  stat fs (resolvePath (ctx_path ctx)) = Rejected e ->
  createRoutes fs resolvePath ctx = caught e ctx.
Proof.
  intros Hstat.
  unfold createRoutes, handler, bind, tryCatch, getPath, await.
  rewrite Hstat. reflexivity.
Qed.

Lemma createRoutes_stat_fulfilled ctx s :
  stat fs (resolvePath (ctx_path ctx)) = Fulfilled s ->
  createRoutes fs resolvePath ctx =
    match (generateResponse fs (resolvePath (ctx_path ctx)) s ctx).1 with
    | Fulfilled response => sendResponse response ctx
    | Rejected e => caught e ctx
    end.
Proof.
  intros Hstat.
  pose proof (generateResponse_ctx (resolvePath (ctx_path ctx)) s ctx) as Hctx.
  unfold createRoutes, handler, bind, tryCatch, getPath, await.
  rewrite Hstat.
  destruct (generateResponse fs (resolvePath (ctx_path ctx)) s ctx)
    as [[response|e] ctx']; simpl in *; subst ctx'.
  - destruct response as [[ | | | ]|]; reflexivity.
  - reflexivity.
Qed.

Lemma sendResponse_settles response ctx :
  (sendResponse response ctx).1 = Fulfilled tt.
Proof. destruct response as [[ | | | ]|]; reflexivity. Qed.

(** *** The response, command by command *)

Lemma generate_no_command path s ctx :
  truthy (ctx_query_command ctx) = false ->
  (generateResponse fs path s ctx).1 =
    match readIfFile fs path s with
    | Fulfilled (Some f) => Fulfilled (Some (File f))
    | Fulfilled None =>
        andThen (readIfDir fs path s false) (fun d => Fulfilled (Dir <$> d))
    | Rejected e => Rejected e
    end.
Proof.
  intros Hq. unfold generateResponse, bind, getQueryCommand, await, ret.
  rewrite Hq.
  destruct (readIfFile fs path s) as [[f|]|e]; try reflexivity.
  destruct (readIfDir fs path s false) as [d|e]; reflexivity.
Qed.

Lemma generate_readfile path s ctx :
  ctx_query_command ctx = QString "readfile" ->
  (generateResponse fs path s ctx).1 =
    andThen (readIfFile fs path s) (fun r => Fulfilled (File <$> r)).
Proof.
  intros Hq. unfold generateResponse, bind, getQueryCommand, await, ret.
  rewrite Hq. simpl.
  destruct (readIfFile fs path s) as [r|e]; reflexivity.
Qed.

Lemma generate_readdir path s ctx :
  ctx_query_command ctx = QString "readdir" ->
  (generateResponse fs path s ctx).1 =
    andThen (readIfDir fs path s false) (fun r => Fulfilled (Dir <$> r)).
Proof.
  intros Hq. unfold generateResponse, bind, getQueryCommand, await, ret.
  rewrite Hq. simpl.
  destruct (readIfDir fs path s false) as [r|e]; reflexivity.
Qed.

Lemma generate_readdir_detailed path s ctx :
  ctx_query_command ctx = QString "readdir-detailed" ->
  (generateResponse fs path s ctx).1 =
    andThen (readIfDir fs path s true) (fun r => Fulfilled (Dir <$> r)).
Proof.
  intros Hq. unfold generateResponse, bind, getQueryCommand, await, ret.
  rewrite Hq. simpl.
  destruct (readIfDir fs path s true) as [r|e]; reflexivity.
Qed.

Lemma generate_stat path s ctx :
  ctx_query_command ctx = QString "stat" ->
  (generateResponse fs path s ctx).1 = Fulfilled (Stat <$> statIfSupported s).
Proof.
  intros Hq. unfold generateResponse, bind, getQueryCommand, await, ret.
  rewrite Hq. reflexivity.
Qed.

Lemma generate_unknown path s ctx :
  truthy (ctx_query_command ctx) = true ->
  (forall c, knownCommand c -> ctx_query_command ctx <> QString c) ->
  (generateResponse fs path s ctx).1 =
    Fulfilled (Some (Error {| code := 500;
                              message := Some ("Unknown command "
                                               +:+ toString (ctx_query_command ctx)) |})).
Proof.
  intros Hq Hunknown. unfold generateResponse, bind, getQueryCommand, await, ret.
  rewrite Hq.
  assert (forall c, knownCommand c -> strictEq (ctx_query_command ctx) c = false)
    as Hneq by (intros c Hc; apply strictEq_false; auto).
  unfold knownCommand in Hneq.
  rewrite !Hneq by eauto 6. reflexivity.
Qed.

(** A command is missing (or empty), one of the four, or unknown. *)
Lemma command_cases (v : QueryValue) :
  truthy v = false \/
  (exists c, knownCommand c /\ v = QString c) \/
  (truthy v = true /\ forall c, knownCommand c -> v <> QString c).
Proof.
  destruct (truthy v) eqn:Ht; [|by left].
  right.
  destruct (strictEq v "readfile") eqn:H1;
    [apply strictEq_true in H1; left; exists "readfile"; unfold knownCommand; auto|].
  destruct (strictEq v "readdir") eqn:H2;
    [apply strictEq_true in H2; left; exists "readdir"; unfold knownCommand; auto|].
  destruct (strictEq v "readdir-detailed") eqn:H3;
    [apply strictEq_true in H3; left; exists "readdir-detailed";
     unfold knownCommand; auto|].
  destruct (strictEq v "stat") eqn:H4;
    [apply strictEq_true in H4; left; exists "stat"; unfold knownCommand; auto 6|].
  right. split; [done|].
  intros c [-> | [-> | [-> | ->]]]; by apply strictEq_false.
Qed.

(** *** The readers *)

Lemma readIfFile_file path s :
  StatsMethods.isFile s = true ->
  readIfFile fs path s =
    andThen (readFile fs path) (fun d => Fulfilled (Some {| data := d |})).
Proof. intros H. unfold readIfFile. rewrite H. reflexivity. Qed.

Lemma readIfFile_other path s :
  StatsMethods.isFile s = false -> readIfFile fs path s = Fulfilled None.
Proof. intros H. unfold readIfFile. rewrite H. reflexivity. Qed.

Lemma readIfDir_other path s detailed :
  StatsMethods.isDirectory s = false ->
  readIfDir fs path s detailed = Fulfilled None.
Proof. intros H. unfold readIfDir. rewrite H. reflexivity. Qed.

Lemma readIfDir_names path s :
  StatsMethods.isDirectory s = true ->
  readIfDir fs path s false =
    andThen (readdir fs path)
            (fun names => Fulfilled (Some {| items := map NameItem names |})).
Proof.
  intros H. unfold readIfDir. rewrite H. simpl.
  destruct (readdir fs path); reflexivity.
Qed.

(** The [forEach] loop pushes, in order, what [supportedEntries] selects. *)
Lemma forEach_push (dirents : list Dirent) (acc : list DirItem) :
  fold_left pushIfSupported dirents acc = (acc ++ supportedEntries dirents)%list.
Proof.
  revert acc. induction dirents as [|d ds IH]; intros acc.
  - simpl. by rewrite app_nil_r.
  - simpl. rewrite IH. unfold pushIfSupported, supportedEntries. simpl.
    destruct (DirentMethods.isFile d || DirentMethods.isDirectory d); simpl.
    + by rewrite <- app_assoc.
    + reflexivity.
Qed.

Lemma readIfDir_detailed path s :
  StatsMethods.isDirectory s = true ->
  readIfDir fs path s true =
    andThen (readdirWithFileTypes fs path)
            (fun ds => Fulfilled (Some {| items := supportedEntries ds |})).
Proof.
  intros H. unfold readIfDir. rewrite H. simpl.
  destruct (readdirWithFileTypes fs path) as [ds|e]; simpl; [|reflexivity].
  by rewrite forEach_push.
Qed.

(** *** Rejections of the read step *)

Lemma readStep_rejects path s ctx e :
  ReadStepFails fs path s (ctx_query_command ctx) e ->
  (generateResponse fs path s ctx).1 = Rejected e.
Proof.
  intros [Hq Hfile Hread | Hq Hdir Hread | Hq Hdir Hread].
  - destruct Hq as [Hq|Hq];
      [rewrite generate_no_command by done | rewrite generate_readfile by done];
      rewrite readIfFile_file, Hread by done; reflexivity.
  - destruct Hq as [Hq|Hq].
    + rewrite generate_no_command by done.
      rewrite readIfFile_other by (by apply isDirectory_not_isFile).
      rewrite readIfDir_names, Hread by done. reflexivity.
    + rewrite generate_readdir by done.
      rewrite readIfDir_names, Hread by done. reflexivity.
  - rewrite generate_readdir_detailed by done.
    rewrite readIfDir_detailed, Hread by done. reflexivity.
Qed.

Lemma readIfFile_rejected path s e :
  readIfFile fs path s = Rejected e ->
  StatsMethods.isFile s = true /\ readFile fs path = Rejected e.
Proof.
  unfold readIfFile. destruct (StatsMethods.isFile s); [|discriminate].
  destruct (readFile fs path); simpl; [discriminate|]. by intros [= ->].
Qed.

Lemma readIfDir_rejected path s detailed e :
  readIfDir fs path s detailed = Rejected e ->
  StatsMethods.isDirectory s = true /\
  if detailed then readdirWithFileTypes fs path = Rejected e
  else readdir fs path = Rejected e.
Proof.
  unfold readIfDir. destruct (StatsMethods.isDirectory s); [|discriminate].
  destruct detailed; simpl.
  - destruct (readdirWithFileTypes fs path); simpl; [discriminate|].
    by intros [= ->].
  - destruct (readdir fs path); simpl; [discriminate|]. by intros [= ->].
Qed.

Lemma rejected_readStep path s ctx e :
  (generateResponse fs path s ctx).1 = Rejected e ->
  ReadStepFails fs path s (ctx_query_command ctx) e.
Proof.
  destruct (command_cases (ctx_query_command ctx))
    as [Hq | [(c & Hc & Hq) | (Hq & Hunknown)]].
  - rewrite generate_no_command by done.
    destruct (readIfFile fs path s) as [[f|]|e'] eqn:Hfile; try discriminate.
    + destruct (readIfDir fs path s false) as [d|e'] eqn:Hdir; [discriminate|].
      intros [= ->]. apply readIfDir_rejected in Hdir as [Hdir Hread].
      apply ListFails; auto.
    + intros [= ->]. apply readIfFile_rejected in Hfile as [Hfile Hread].
      apply FileReadFails; auto.
  - destruct Hc as [-> | [-> | [-> | ->]]].
    + rewrite generate_readfile by done.
      destruct (readIfFile fs path s) as [r|e'] eqn:Hfile; [discriminate|].
      intros [= ->]. apply readIfFile_rejected in Hfile as [Hfile Hread].
      apply FileReadFails; auto.
    + rewrite generate_readdir by done.
      destruct (readIfDir fs path s false) as [d|e'] eqn:Hdir; [discriminate|].
      intros [= ->]. apply readIfDir_rejected in Hdir as [Hdir Hread].
      apply ListFails; auto.
    + rewrite generate_readdir_detailed by done.
      destruct (readIfDir fs path s true) as [d|e'] eqn:Hdir; [discriminate|].
      intros [= ->]. apply readIfDir_rejected in Hdir as [Hdir Hread].
      apply DetailedListFails; auto.
    + rewrite generate_stat by done. discriminate.
  - rewrite generate_unknown by done. discriminate.
Qed.

End Run.

Lemma codeIs_true (e : JSError) (lit : string) :
  codeIs e lit = true <-> err_code e = Some lit.
Proof.
  unfold codeIs. destruct (err_code e) as [c|]; [|split; discriminate].
  rewrite String.eqb_eq. split; congruence.
Qed.

Lemma codeIs_false (e : JSError) (lit : string) :
  codeIs e lit = false <-> err_code e <> Some lit.
Proof.
  rewrite <- codeIs_true. destruct (codeIs e lit); split; congruence.
Qed.

Section Outcome.

Variable fs : FileSystem.
Variable resolvePath : string -> string.

Implicit Types (ctx : Context) (s : Stats) (e : JSError).

Lemma sendResponse_status response ctx :
  ctx_status (sendResponse response ctx).2 =
    match response with
    | Some (Error err) => code err
    | Some _ => 200
    | None => 500
    end.
Proof. destruct response as [[ | | | ]|]; reflexivity. Qed.

Lemma sendResponse_body response ctx :
  ctx_body (sendResponse response ctx).2 =
    match response with
    | Some (Error err) =>
        match message err with Some m => BodyText m | None => BodyUndefined end
    | Some r => BodyObject r
    | None => ctx_body ctx
    end.
Proof. destruct response as [[ | | | ]|]; reflexivity. Qed.

(** Status and body once [fs.stat] has succeeded, from what the read step
    gave. *)
Lemma after_stat_fulfilled ctx s :
  stat fs (resolvePath (ctx_path ctx)) = Fulfilled s ->
  settlement fs resolvePath ctx = Fulfilled tt /\
  match (generateResponse fs (resolvePath (ctx_path ctx)) s ctx).1 with
  | Fulfilled response =>
      ctx_status (after fs resolvePath ctx) =
        match response with
        | Some (Error err) => code err
        | Some _ => 200
        | None => 500
        end /\
      ctx_body (after fs resolvePath ctx) =
        match response with
        | Some (Error err) =>
            match message err with Some m => BodyText m | None => BodyUndefined end
        | Some r => BodyObject r
        | None => ctx_body ctx
        end
  | Rejected e =>
      ctx_status (after fs resolvePath ctx) =
        (if codeIs e "ENOENT" then 404 else 500) /\
      ctx_body (after fs resolvePath ctx) = ctx_body ctx
  end.
Proof.
  intros Hstat. unfold settlement, after.
  rewrite (createRoutes_stat_fulfilled _ _ _ _ Hstat).
  destruct (generateResponse fs (resolvePath (ctx_path ctx)) s ctx).1
    as [response|e].
  - rewrite sendResponse_settles, sendResponse_status, sendResponse_body. done.
  - rewrite caught_settles, caught_status, caught_body. done.
Qed.

Lemma after_stat_rejected ctx e :
  stat fs (resolvePath (ctx_path ctx)) = Rejected e ->
  settlement fs resolvePath ctx = Fulfilled tt /\
  ctx_status (after fs resolvePath ctx) = (if codeIs e "ENOENT" then 404 else 500) /\
  ctx_body (after fs resolvePath ctx) = ctx_body ctx.
Proof.
  intros Hstat. unfold settlement, after.
  rewrite (createRoutes_stat_rejected _ _ _ _ Hstat).
  by rewrite caught_settles, caught_status, caught_body.
Qed.

(** Requests for one path that lead to the same response are answered
    alike. *)
Lemma sameOutcome_intro ctx1 ctx2 :
  ctx_path ctx1 = ctx_path ctx2 ->
  ctx_body ctx1 = ctx_body ctx2 ->
  (forall s, stat fs (resolvePath (ctx_path ctx1)) = Fulfilled s ->
             (generateResponse fs (resolvePath (ctx_path ctx1)) s ctx1).1 =
             (generateResponse fs (resolvePath (ctx_path ctx1)) s ctx2).1) ->
  sameOutcome fs resolvePath ctx1 ctx2.
Proof.
  intros Hpath Hbody Hresp. unfold sameOutcome.
  destruct (stat fs (resolvePath (ctx_path ctx1))) as [s|e] eqn:Hstat.
  - pose proof (after_stat_fulfilled ctx1 s Hstat) as [Hs1 H1].
    assert (stat fs (resolvePath (ctx_path ctx2)) = Fulfilled s) as Hstat2
        by (by rewrite <- Hpath).
    pose proof (after_stat_fulfilled ctx2 s Hstat2) as [Hs2 H2].
    rewrite <- Hpath, <- (Hresp s eq_refl) in H2.
    destruct (generateResponse fs (resolvePath (ctx_path ctx1)) s ctx1).1
      as [response|e]; destruct H1 as [-> ->], H2 as [-> ->];
      rewrite Hs1, Hs2, ?Hbody; done.
  - pose proof (after_stat_rejected ctx1 e Hstat) as (-> & -> & ->).
    assert (stat fs (resolvePath (ctx_path ctx2)) = Rejected e) as Hstat2
        by (by rewrite <- Hpath).
    pose proof (after_stat_rejected ctx2 e Hstat2) as (-> & -> & ->).
    by rewrite Hbody.
Qed.

(** Every way the read step can end, with its cause. *)
Lemma response_cases path s ctx :
  (exists e, ReadStepFails fs path s (ctx_query_command ctx) e /\
             (generateResponse fs path s ctx).1 = Rejected e) \/
  (Inapplicable (ctx_query_command ctx) s /\
   (generateResponse fs path s ctx).1 = Fulfilled None) \/
  (unknownCommand (ctx_query_command ctx) /\
   (generateResponse fs path s ctx).1 =
     Fulfilled (Some (Error {| code := 500;
                               message := Some ("Unknown command "
                                                +:+ toString (ctx_query_command ctx)) |}))) \/
  (exists r, type r <> "error" /\
             (generateResponse fs path s ctx).1 = Fulfilled (Some r)).
Proof.
  destruct (generateResponse fs path s ctx).1 as [response|e] eqn:Hresp.
  2: { left. exists e. split; [by apply rejected_readStep | done]. }
  right.
  destruct (command_cases (ctx_query_command ctx))
    as [Hq | [(c & Hc & Hq) | Hq]].
  - rewrite generate_no_command in Hresp by done.
    destruct (StatsMethods.isFile s) eqn:Hfile.
    + rewrite readIfFile_file in Hresp by done.
      destruct (readFile fs path); simpl in Hresp; [|discriminate].
      injection Hresp as <-. right; right. eexists. split; [|done]. done.
    + rewrite readIfFile_other in Hresp by done.
      destruct (StatsMethods.isDirectory s) eqn:Hdir.
      * rewrite readIfDir_names in Hresp by done.
        destruct (readdir fs path); simpl in Hresp; [|discriminate].
        injection Hresp as <-. right; right. eexists. split; [|done]. done.
      * rewrite readIfDir_other in Hresp by done. injection Hresp as <-.
        left. split; [|done]. left. done.
  - destruct Hc as [-> | [-> | [-> | ->]]].
    + rewrite generate_readfile in Hresp by done.
      destruct (StatsMethods.isFile s) eqn:Hfile.
      * rewrite readIfFile_file in Hresp by done.
        destruct (readFile fs path); simpl in Hresp; [|discriminate].
        injection Hresp as <-. right; right. eexists. split; [|done]. done.
      * rewrite readIfFile_other in Hresp by done. injection Hresp as <-.
        left. split; [|done]. right; left. done.
    + rewrite generate_readdir in Hresp by done.
      destruct (StatsMethods.isDirectory s) eqn:Hdir.
      * rewrite readIfDir_names in Hresp by done.
        destruct (readdir fs path); simpl in Hresp; [|discriminate].
        injection Hresp as <-. right; right. eexists. split; [|done]. done.
      * rewrite readIfDir_other in Hresp by done. injection Hresp as <-.
        left. split; [|done]. right; right; left. split; [by left | done].
    + rewrite generate_readdir_detailed in Hresp by done.
      destruct (StatsMethods.isDirectory s) eqn:Hdir.
      * rewrite readIfDir_detailed in Hresp by done.
        destruct (readdirWithFileTypes fs path); simpl in Hresp; [|discriminate].
        injection Hresp as <-. right; right. eexists. split; [|done]. done.
      * rewrite readIfDir_other in Hresp by done. injection Hresp as <-.
        left. split; [|done]. right; right; left. split; [by right | done].
    + rewrite generate_stat in Hresp by done. injection Hresp as <-.
      unfold statIfSupported.
      destruct (StatsMethods.isFile s) eqn:Hfile;
        destruct (StatsMethods.isDirectory s) eqn:Hdir; simpl;
        try (right; right; eexists; split; [|done]; done).
      left. split; [|done]. right; right; right. done.
  - destruct Hq as [Hq Hunknown].
    rewrite generate_unknown in Hresp by done. injection Hresp as <-.
    right; left. done.
Qed.

End Outcome.

(** ** Sample requests *)

Example sample_readdir :
  ctx_body (after Sample.fs Sample.resolvePath
              (Sample.request "/docs" (QString "readdir"))) =
    BodyObject (Dir {| items := [ NameItem "a.txt"; NameItem "latest";
                                  NameItem "sub"; NameItem "ctl.sock" ] |}).
Proof. reflexivity. Qed.

Example sample_readdir_on_file :
  ctx_status (after Sample.fs Sample.resolvePath
                (Sample.request "/a.txt" (QString "readdir"))) = 500.
Proof. reflexivity. Qed.

Example sample_repeated_command :
  ctx_body (after Sample.fs Sample.resolvePath
              (Sample.request "/a.txt" (QArray ["stat"; "stat"]))) =
    BodyText "Unknown command stat,stat".
Proof. reflexivity. Qed.

(** * The claims *)

(** C1: when the initial stat of the resolved path is rejected, the handler
    answers 404 if the error code is ENOENT and 500 otherwise, whatever the
    command parameter is, and assigns no body: a request that arrives
    without a body leaves without one. *)
Theorem stat_failure_is_404_or_500
  (fs : FileSystem) (resolvePath : string -> string) (ctx : Context) (e : JSError) :
  stat fs (resolvePath (ctx_path ctx)) = Rejected e ->
  ctx_body ctx = BodyUndefined ->
  settlement fs resolvePath ctx = Fulfilled tt /\
  ctx_body (after fs resolvePath ctx) = BodyUndefined /\
  (err_code e = Some "ENOENT" -> ctx_status (after fs resolvePath ctx) = 404) /\
  (err_code e <> Some "ENOENT" -> ctx_status (after fs resolvePath ctx) = 500).
Proof.
  intros Hstat Hbody.
  destruct (after_stat_rejected fs resolvePath ctx e Hstat) as (Hs & Hstatus & Hb).
  repeat split; [done | congruence | |].
  - intros Hcode. apply codeIs_true in Hcode. by rewrite Hstatus, Hcode.
  - intros Hcode. apply codeIs_false in Hcode. by rewrite Hstatus, Hcode.
Qed.

Lemma stat_failure_is_404_or_500_witness :
  ctx_status (after Sample.fs Sample.resolvePath
                (Sample.request "/nope" (QString "readdir"))) = 404 /\
  ctx_body (after Sample.fs Sample.resolvePath
              (Sample.request "/nope" (QString "readdir"))) = BodyUndefined /\
  ctx_status (after Sample.fs Sample.resolvePath
                (Sample.request "/private" QUndefined)) = 500.
Proof.
  destruct (stat_failure_is_404_or_500 Sample.fs Sample.resolvePath
              (Sample.request "/nope" (QString "readdir")) Sample.enoent
              eq_refl eq_refl) as (_ & Hbody & Hmissing & _).
  destruct (stat_failure_is_404_or_500 Sample.fs Sample.resolvePath
              (Sample.request "/private" QUndefined) Sample.eacces
              eq_refl eq_refl) as (_ & _ & _ & Hother).
  split; [apply Hmissing; reflexivity|].
  split; [exact Hbody|].
  apply Hother. discriminate.
Defined.


(** C2: after a successful stat, a request without a command is answered as
    [command=readfile] is when the path is a regular file, and as
    [command=readdir] is when it is a directory: the same response and the
    same status and body.  The file reader is asked first, and its envelope
    is the response whenever it gives one.  When the path is neither, there
    is no envelope and the status is 500. *)
Theorem no_command_reads_file_then_directory
  (fs : FileSystem) (resolvePath : string -> string) (ctx : Context) (s : Stats) :
  stat fs (resolvePath (ctx_path ctx)) = Fulfilled s ->
  ctx_query_command ctx = QUndefined ->
  (StatsMethods.isFile s = true ->
   (generateResponse fs (resolvePath (ctx_path ctx)) s ctx).1 =
   (generateResponse fs (resolvePath (ctx_path ctx)) s
      (withCommand ctx (QString "readfile"))).1 /\
   sameOutcome fs resolvePath ctx (withCommand ctx (QString "readfile"))) /\
  (StatsMethods.isDirectory s = true ->
   (generateResponse fs (resolvePath (ctx_path ctx)) s ctx).1 =
   (generateResponse fs (resolvePath (ctx_path ctx)) s
      (withCommand ctx (QString "readdir"))).1 /\
   sameOutcome fs resolvePath ctx (withCommand ctx (QString "readdir"))) /\
  (forall f, readIfFile fs (resolvePath (ctx_path ctx)) s = Fulfilled (Some f) ->
             (generateResponse fs (resolvePath (ctx_path ctx)) s ctx).1 =
             Fulfilled (Some (File f))) /\
  (StatsMethods.isFile s = false -> StatsMethods.isDirectory s = false ->
   (generateResponse fs (resolvePath (ctx_path ctx)) s ctx).1 = Fulfilled None /\
   ctx_status (after fs resolvePath ctx) = 500 /\
   ctx_body (after fs resolvePath ctx) = ctx_body ctx).
Proof.
  intros Hstat Hq.
  assert (truthy (ctx_query_command ctx) = false) as Hfalsy by (by rewrite Hq).
  set (path := resolvePath (ctx_path ctx)) in *.
  assert (StatsMethods.isFile s = true ->
          (generateResponse fs path s ctx).1 =
          (generateResponse fs path s (withCommand ctx (QString "readfile"))).1)
    as Hfile.
  { intros Hfile. rewrite generate_no_command, generate_readfile by done.
    rewrite readIfFile_file by done.
    destruct (readFile fs path); reflexivity. }
  assert (StatsMethods.isDirectory s = true ->
          (generateResponse fs path s ctx).1 =
          (generateResponse fs path s (withCommand ctx (QString "readdir"))).1)
    as Hdir.
  { intros Hdir. rewrite generate_no_command, generate_readdir by done.
    rewrite readIfFile_other by (by apply isDirectory_not_isFile).
    reflexivity. }
  assert (forall ctx', (StatsMethods.isFile s = true \/ StatsMethods.isDirectory s = true ->
             (generateResponse fs path s ctx).1 = (generateResponse fs path s ctx').1) ->
           StatsMethods.isFile s = true \/ StatsMethods.isDirectory s = true ->
           ctx_path ctx = ctx_path ctx' -> ctx_body ctx = ctx_body ctx' ->
           sameOutcome fs resolvePath ctx ctx') as Hsame.
  { intros ctx' Hresp Htype Hpath Hbody. apply sameOutcome_intro; [done..|].
    intros s' Hs'. fold path in Hs'. rewrite Hstat in Hs'.
    injection Hs' as <-. fold path. by apply Hresp. }
  split; [|split; [|split]].
  - intros Hf. split; [by apply Hfile|].
    apply Hsame; [intros _; by apply Hfile | by left | done..].
  - intros Hd. split; [by apply Hdir|].
    apply Hsame; [intros _; by apply Hdir | by right | done..].
  - intros f Hf. rewrite generate_no_command by done. by rewrite Hf.
  - intros Hnf Hnd.
    destruct (after_stat_fulfilled fs resolvePath ctx s Hstat) as [_ Hafter].
    fold path in Hafter. rewrite generate_no_command in Hafter |- * by done.
    rewrite readIfFile_other, readIfDir_other in Hafter |- * by done.
    split; [reflexivity | apply Hafter].
Qed.

Lemma no_command_reads_file_then_directory_witness :
  sameOutcome Sample.fs Sample.resolvePath
    (Sample.request "/a.txt" QUndefined)
    (Sample.request "/a.txt" (QString "readfile")) /\
  sameOutcome Sample.fs Sample.resolvePath
    (Sample.request "/docs" QUndefined)
    (Sample.request "/docs" (QString "readdir")) /\
  ctx_status (after Sample.fs Sample.resolvePath
                (Sample.request "/ctl.sock" QUndefined)) = 500.
Proof.
  destruct (no_command_reads_file_then_directory Sample.fs Sample.resolvePath
              (Sample.request "/a.txt" QUndefined) Sample.fileStats
              eq_refl eq_refl) as (Hfile & _).
  destruct (no_command_reads_file_then_directory Sample.fs Sample.resolvePath
              (Sample.request "/docs" QUndefined) Sample.dirStats
              eq_refl eq_refl) as (_ & Hdir & _).
  destruct (no_command_reads_file_then_directory Sample.fs Sample.resolvePath
              (Sample.request "/ctl.sock" QUndefined) Sample.socketStats
              eq_refl eq_refl) as (_ & _ & _ & Hneither).
  split; [exact (proj2 (Hfile eq_refl))|].
  split; [exact (proj2 (Hdir eq_refl))|].
  exact (proj1 (proj2 (Hneither eq_refl eq_refl))).
Defined.

(** C9: the handler's promise is always fulfilled, so no error leaves it.
    An error of the read or list step that follows a successful stat lands
    in the same catch block as a stat error: 404 when its code is ENOENT,
    500 otherwise, and the body is not assigned. *)
Theorem read_errors_are_caught
  (fs : FileSystem) (resolvePath : string -> string) (ctx : Context) :
  settlement fs resolvePath ctx = Fulfilled tt /\
  forall s e,
    stat fs (resolvePath (ctx_path ctx)) = Fulfilled s ->
    ReadStepFails fs (resolvePath (ctx_path ctx)) s (ctx_query_command ctx) e ->
    ctx_body (after fs resolvePath ctx) = ctx_body ctx /\
    (err_code e = Some "ENOENT" -> ctx_status (after fs resolvePath ctx) = 404) /\
    (err_code e <> Some "ENOENT" -> ctx_status (after fs resolvePath ctx) = 500).
Proof.
  split.
  - destruct (stat fs (resolvePath (ctx_path ctx))) as [s|e] eqn:Hstat.
    + by destruct (after_stat_fulfilled fs resolvePath ctx s Hstat).
    + by destruct (after_stat_rejected fs resolvePath ctx e Hstat).
  - intros s e Hstat Hfails.
    destruct (after_stat_fulfilled fs resolvePath ctx s Hstat) as [_ Hafter].
    rewrite (readStep_rejects fs _ s ctx e Hfails) in Hafter.
    destruct Hafter as [Hstatus Hbody].
    split; [done|]. split; intros Hcode.
    + apply codeIs_true in Hcode. by rewrite Hstatus, Hcode.
    + apply codeIs_false in Hcode. by rewrite Hstatus, Hcode.
Qed.

Lemma read_errors_are_caught_witness :
  ctx_status (after Sample.fs Sample.resolvePath
                (Sample.request "/tmp.txt" QUndefined)) = 404 /\
  ctx_status (after Sample.fs Sample.resolvePath
                (Sample.request "/secret.txt" (QString "readfile"))) = 500.
Proof.
  split.
  - refine (proj1 (proj2 (proj2 (read_errors_are_caught Sample.fs Sample.resolvePath
                      (Sample.request "/tmp.txt" QUndefined))
                    Sample.fileStats Sample.enoent eq_refl _)) eq_refl).
    apply FileReadFails; [left|..]; reflexivity.
  - refine (proj2 (proj2 (proj2 (read_errors_are_caught Sample.fs Sample.resolvePath
                      (Sample.request "/secret.txt" (QString "readfile")))
                    Sample.fileStats Sample.eacces eq_refl _)) _).
    + apply FileReadFails; [right|..]; reflexivity.
    + discriminate.
Defined.

(** C10: a request whose command parameter is the empty string is answered
    exactly as the same request without the parameter; after a successful
    stat its response is the one of the fallback, file reader first and
    directory reader second, and never the error envelope. *)
Theorem empty_command_is_no_command
  (fs : FileSystem) (resolvePath : string -> string) (ctx : Context) :
  ctx_query_command ctx = QString "" ->
  sameOutcome fs resolvePath ctx (withCommand ctx QUndefined) /\
  forall s,
    (generateResponse fs (resolvePath (ctx_path ctx)) s ctx).1 =
    (generateResponse fs (resolvePath (ctx_path ctx)) s
       (withCommand ctx QUndefined)).1 /\
    (generateResponse fs (resolvePath (ctx_path ctx)) s ctx).1 =
    match readIfFile fs (resolvePath (ctx_path ctx)) s with
    | Fulfilled (Some f) => Fulfilled (Some (File f))
    | Fulfilled None =>
        andThen (readIfDir fs (resolvePath (ctx_path ctx)) s false)
                (fun d => Fulfilled (Dir <$> d))
    | Rejected e => Rejected e
    end /\
    forall err,
      (generateResponse fs (resolvePath (ctx_path ctx)) s ctx).1 <>
      Fulfilled (Some (Error err)).
Proof.
  intros Hq.
  assert (truthy (ctx_query_command ctx) = false) as Hfalsy by (by rewrite Hq).
  assert (forall s,
             (generateResponse fs (resolvePath (ctx_path ctx)) s ctx).1 =
             (generateResponse fs (resolvePath (ctx_path ctx)) s
                (withCommand ctx QUndefined)).1) as Hsame.
  { intros s. by rewrite !generate_no_command. }
  split.
  - apply sameOutcome_intro; [done..|]. intros s _. apply Hsame.
  - intros s. split; [apply Hsame|].
    rewrite generate_no_command by done. split; [done|].
    intros err.
    destruct (readIfFile fs (resolvePath (ctx_path ctx)) s) as [[f|]|e];
      try discriminate.
    destruct (readIfDir fs (resolvePath (ctx_path ctx)) s false) as [[d|]|e];
      discriminate.
Qed.

Lemma empty_command_is_no_command_witness :
  sameOutcome Sample.fs Sample.resolvePath
    (Sample.request "/a.txt" (QString ""))
    (Sample.request "/a.txt" QUndefined).
Proof.
  exact (proj1 (empty_command_is_no_command Sample.fs Sample.resolvePath
                  (Sample.request "/a.txt" (QString "")) eq_refl)).
Defined.

(** C3, as stated, fails on the empty command string: it is none of the four
    commands, yet the request for an existing file is answered 200 with the
    file, not 500 with a message. *)
Lemma empty_command_is_not_unknown :
  stat Sample.fs (Sample.resolvePath "/a.txt") = Fulfilled Sample.fileStats /\
  ~ knownCommand "" /\
  ctx_status (after Sample.fs Sample.resolvePath
                (Sample.request "/a.txt" (QString ""))) = 200 /\
  ctx_body (after Sample.fs Sample.resolvePath
              (Sample.request "/a.txt" (QString ""))) =
    BodyObject (File {| data := Sample.hi |}) /\
  ~ (ctx_status (after Sample.fs Sample.resolvePath
                   (Sample.request "/a.txt" (QString ""))) = 500 /\
     ctx_body (after Sample.fs Sample.resolvePath
                 (Sample.request "/a.txt" (QString ""))) =
       BodyText ("Unknown command " +:+ "")).
Proof.
  split; [reflexivity|].
  split; [intros [H | [H | [H | H]]]; discriminate|].
  split; [reflexivity|].
  split; [reflexivity|].
  intros [H _]. vm_compute in H. discriminate.
Qed.

(** C3, amended: for an existing path and a non-empty command string that
    is none of the four commands, the answer is 500 with the text
    [Unknown command ] followed by the command as its body.  No other
    request leaves with a text body: on a request that arrived without a
    body, a text body means the stat succeeded, the command was present and
    unknown, the status is 500 and the text is that message. *)
Theorem unknown_command_is_500_with_message
  (fs : FileSystem) (resolvePath : string -> string) (ctx : Context) :
  (forall s c,
      stat fs (resolvePath (ctx_path ctx)) = Fulfilled s ->
      ctx_query_command ctx = QString c ->
      c <> "" ->
      ~ knownCommand c ->
      ctx_status (after fs resolvePath ctx) = 500 /\
      ctx_body (after fs resolvePath ctx) = BodyText ("Unknown command " +:+ c)) /\
  (forall m,
      ctx_body ctx = BodyUndefined ->
      ctx_body (after fs resolvePath ctx) = BodyText m ->
      (exists s, stat fs (resolvePath (ctx_path ctx)) = Fulfilled s) /\
      unknownCommand (ctx_query_command ctx) /\
      ctx_status (after fs resolvePath ctx) = 500 /\
      m = "Unknown command " +:+ toString (ctx_query_command ctx)).
Proof.
  split.
  - intros s c Hstat Hq Hne Hunknown.
    destruct (after_stat_fulfilled fs resolvePath ctx s Hstat) as [_ Hafter].
    rewrite generate_unknown in Hafter.
    + rewrite Hq in Hafter. exact Hafter.
    + rewrite Hq. by apply truthy_QString.
    + rewrite Hq. intros c' Hc' [= ->]. contradiction.
  - intros m Hbody0 Hbody.
    destruct (stat fs (resolvePath (ctx_path ctx))) as [s|e] eqn:Hstat.
    2: { destruct (after_stat_rejected fs resolvePath ctx e Hstat) as (_ & _ & Hb).
         congruence. }
    destruct (after_stat_fulfilled fs resolvePath ctx s Hstat) as [_ Hafter].
    destruct (response_cases fs (resolvePath (ctx_path ctx)) s ctx)
      as [(e & _ & Hr) | [(_ & Hr) | [(Hunknown & Hr) | (r & Hr' & Hr)]]];
      rewrite Hr in Hafter; destruct Hafter as [Hstatus Hb].
    + congruence.
    + congruence.
    + simpl in Hstatus, Hb. split; [by exists s|]. split; [done|].
      split; [done|]. congruence.
    + destruct r; simpl in Hr'; try congruence.
Qed.

Lemma unknown_command_is_500_with_message_witness :
  ctx_status (after Sample.fs Sample.resolvePath
                (Sample.request "/docs" (QString "bogus"))) = 500 /\
  ctx_body (after Sample.fs Sample.resolvePath
              (Sample.request "/docs" (QString "bogus"))) =
    BodyText "Unknown command bogus".
Proof.
  refine (proj1 (unknown_command_is_500_with_message Sample.fs Sample.resolvePath
                   (Sample.request "/docs" (QString "bogus")))
                Sample.dirStats "bogus" eq_refl eq_refl _ _).
  - discriminate.
  - intros [H | [H | [H | H]]]; discriminate.
Defined.

(** C4: for a directory whose typed listing is [dirents],
    [command=readdir-detailed] is answered 200 with a directory envelope
    whose items are, in listing order, the name and directory flag of
    exactly the entries that are a file or a directory; entries of any
    other type are left out. *)
Theorem readdir_detailed_keeps_files_and_directories
  (fs : FileSystem) (resolvePath : string -> string) (ctx : Context)
  (s : Stats) (dirents : list Dirent) :
  stat fs (resolvePath (ctx_path ctx)) = Fulfilled s ->
  StatsMethods.isDirectory s = true ->
  ctx_query_command ctx = QString "readdir-detailed" ->
  readdirWithFileTypes fs (resolvePath (ctx_path ctx)) = Fulfilled dirents ->
  exists entries,
    ctx_status (after fs resolvePath ctx) = 200 /\
    ctx_body (after fs resolvePath ctx) = BodyObject (Dir {| items := entries |}) /\
    entries =
      map (fun d => DirentItem {| name := dirent_name d;
                                  dir := DirentMethods.isDirectory d |})
          (List.filter (fun d => DirentMethods.isFile d || DirentMethods.isDirectory d)
                       dirents) /\
    forall item,
      In item entries <->
      exists d, In d dirents /\
                (DirentMethods.isFile d = true \/ DirentMethods.isDirectory d = true) /\
                item = DirentItem {| name := dirent_name d;
                                     dir := DirentMethods.isDirectory d |}.
Proof.
  intros Hstat Hdir Hq Hlist.
  destruct (after_stat_fulfilled fs resolvePath ctx s Hstat) as [_ Hafter].
  rewrite generate_readdir_detailed in Hafter by done.
  rewrite readIfDir_detailed, Hlist in Hafter by done.
  destruct Hafter as [Hstatus Hbody].
  exists (supportedEntries dirents).
  split; [exact Hstatus|]. split; [exact Hbody|]. split; [reflexivity|].
  intros item. unfold supportedEntries. rewrite in_map_iff. split.
  - intros (d & Heq & Hin). apply filter_In in Hin as [Hin Hkeep].
    exists d. apply orb_true_iff in Hkeep. by rewrite <- Heq.
  - intros (d & Hin & Hkeep & ->). exists d. split; [reflexivity|].
    apply filter_In. split; [done|]. by apply orb_true_iff.
Qed.

Lemma readdir_detailed_keeps_files_and_directories_witness :
  ctx_status (after Sample.fs Sample.resolvePath
                (Sample.request "/docs" (QString "readdir-detailed"))) = 200 /\
  ctx_body (after Sample.fs Sample.resolvePath
              (Sample.request "/docs" (QString "readdir-detailed"))) =
    BodyObject (Dir {| items := [ DirentItem {| name := "a.txt"; dir := false |};
                                  DirentItem {| name := "sub"; dir := true |} ] |}).
Proof.
  destruct (readdir_detailed_keeps_files_and_directories
              Sample.fs Sample.resolvePath
              (Sample.request "/docs" (QString "readdir-detailed"))
              Sample.dirStats Sample.listing eq_refl eq_refl eq_refl eq_refl)
    as (entries & Hstatus & Hbody & -> & _).
  split; [exact Hstatus | exact Hbody].
Defined.

(** C5: after a successful stat, [command=stat] produces a stats envelope
    exactly when the path is a regular file or a directory, and then the
    answer is 200 with that envelope; for any other type there is no
    envelope and the answer is 500 without a body assigned. *)
Theorem stat_command_needs_file_or_directory
  (fs : FileSystem) (resolvePath : string -> string) (ctx : Context) (s : Stats) :
  stat fs (resolvePath (ctx_path ctx)) = Fulfilled s ->
  ctx_query_command ctx = QString "stat" ->
  ((exists r, (generateResponse fs (resolvePath (ctx_path ctx)) s ctx).1 =
                Fulfilled (Some (Stat r))) <->
   (StatsMethods.isFile s = true \/ StatsMethods.isDirectory s = true)) /\
  (StatsMethods.isFile s = true \/ StatsMethods.isDirectory s = true ->
   exists r, statIfSupported s = Some r /\
             ctx_status (after fs resolvePath ctx) = 200 /\
             ctx_body (after fs resolvePath ctx) = BodyObject (Stat r)) /\
  (StatsMethods.isFile s = false -> StatsMethods.isDirectory s = false ->
   (generateResponse fs (resolvePath (ctx_path ctx)) s ctx).1 = Fulfilled None /\
   ctx_status (after fs resolvePath ctx) = 500 /\
   ctx_body (after fs resolvePath ctx) = ctx_body ctx).
Proof.
  intros Hstat Hq.
  destruct (after_stat_fulfilled fs resolvePath ctx s Hstat) as [_ Hafter].
  rewrite generate_stat in Hafter |- * by done.
  unfold statIfSupported in *.
  destruct (StatsMethods.isFile s) eqn:Hfile;
    destruct (StatsMethods.isDirectory s) eqn:Hdir; simpl in *.
  all: split; [split; [intros [r Hr]; first [by left | by right | discriminate]
                      | intros [H|H]; first [discriminate | by eexists]]
              | split; [intros [H|H]; first [discriminate | by eexists]
                       | intros H1 H2; first [discriminate | done]]].
Qed.

Lemma stat_command_needs_file_or_directory_witness :
  ctx_status (after Sample.fs Sample.resolvePath
                (Sample.request "/ctl.sock" (QString "stat"))) = 500 /\
  ctx_body (after Sample.fs Sample.resolvePath
              (Sample.request "/ctl.sock" (QString "stat"))) = BodyUndefined /\
  exists r, ctx_body (after Sample.fs Sample.resolvePath
                        (Sample.request "/docs" (QString "stat"))) =
              BodyObject (Stat r).
Proof.
  destruct (stat_command_needs_file_or_directory Sample.fs Sample.resolvePath
              (Sample.request "/ctl.sock" (QString "stat")) Sample.socketStats
              eq_refl eq_refl) as (_ & _ & Hother).
  destruct (stat_command_needs_file_or_directory Sample.fs Sample.resolvePath
              (Sample.request "/docs" (QString "stat")) Sample.dirStats
              eq_refl eq_refl) as (_ & Hdir & _).
  destruct (Hother eq_refl eq_refl) as (_ & Hstatus & Hbody).
  destruct (Hdir (or_intror eq_refl)) as (r & _ & _ & Hr).
  split; [exact Hstatus|]. split; [exact Hbody|]. exists r. exact Hr.
Defined.

(** C6: [command=readfile] on a regular file whose contents are [contents]
    is answered 200 with the file envelope holding exactly those bytes; on
    an existing path that is not a regular file it produces no envelope and
    is answered 500. *)
Theorem readfile_returns_the_contents
  (fs : FileSystem) (resolvePath : string -> string) (ctx : Context) (s : Stats) :
  stat fs (resolvePath (ctx_path ctx)) = Fulfilled s ->
  ctx_query_command ctx = QString "readfile" ->
  (forall contents : Buffer,
      StatsMethods.isFile s = true ->
      readFile fs (resolvePath (ctx_path ctx)) = Fulfilled contents ->
      ctx_status (after fs resolvePath ctx) = 200 /\
      ctx_body (after fs resolvePath ctx) = BodyObject (File {| data := contents |})) /\
  (StatsMethods.isFile s = false ->
   (generateResponse fs (resolvePath (ctx_path ctx)) s ctx).1 = Fulfilled None /\
   ctx_status (after fs resolvePath ctx) = 500 /\
   ctx_body (after fs resolvePath ctx) = ctx_body ctx).
Proof.
  intros Hstat Hq.
  destruct (after_stat_fulfilled fs resolvePath ctx s Hstat) as [_ Hafter].
  rewrite generate_readfile in Hafter |- * by done.
  split.
  - intros contents Hfile Hread.
    rewrite readIfFile_file, Hread in Hafter by done. exact Hafter.
  - intros Hfile. rewrite readIfFile_other in Hafter |- * by done.
    split; [reflexivity | exact Hafter].
Qed.

Lemma readfile_returns_the_contents_witness :
  ctx_status (after Sample.fs Sample.resolvePath
                (Sample.request "/a.txt" (QString "readfile"))) = 200 /\
  ctx_body (after Sample.fs Sample.resolvePath
              (Sample.request "/a.txt" (QString "readfile"))) =
    BodyObject (File {| data := Sample.hi |}) /\
  ctx_status (after Sample.fs Sample.resolvePath
                (Sample.request "/docs" (QString "readfile"))) = 500.
Proof.
  destruct (readfile_returns_the_contents Sample.fs Sample.resolvePath
              (Sample.request "/a.txt" (QString "readfile")) Sample.fileStats
              eq_refl eq_refl) as (Hfile & _).
  destruct (readfile_returns_the_contents Sample.fs Sample.resolvePath
              (Sample.request "/docs" (QString "readfile")) Sample.dirStats
              eq_refl eq_refl) as (_ & Hother).
  destruct (Hfile Sample.hi eq_refl eq_refl) as [Hstatus Hbody].
  destruct (Hother eq_refl) as (_ & Hstatus' & _).
  split; [exact Hstatus|]. split; [exact Hbody | exact Hstatus'].
Defined.

(** C7: every request is settled without an error, with one status among
    200, 404 and 500 and one body, for one of these causes: a file,
    directory or stats envelope (200, the envelope as body); an fs error
    with code ENOENT (404, body not assigned); an fs error with another
    code, or a command that does not apply to the type of the path (500,
    body not assigned); an unknown command (500, the message as body). *)
Theorem every_request_gets_one_answer
  (fs : FileSystem) (resolvePath : string -> string) (ctx : Context) :
  settlement fs resolvePath ctx = Fulfilled tt /\
  Answer fs (resolvePath (ctx_path ctx)) (ctx_query_command ctx) (ctx_body ctx)
         (ctx_status (after fs resolvePath ctx))
         (ctx_body (after fs resolvePath ctx)) /\
  (ctx_status (after fs resolvePath ctx) = 200 \/
   ctx_status (after fs resolvePath ctx) = 404 \/
   ctx_status (after fs resolvePath ctx) = 500).
Proof.
  assert (settlement fs resolvePath ctx = Fulfilled tt /\
          Answer fs (resolvePath (ctx_path ctx)) (ctx_query_command ctx)
                 (ctx_body ctx)
                 (ctx_status (after fs resolvePath ctx))
                 (ctx_body (after fs resolvePath ctx))) as [Hsettled Hanswer].
  { destruct (stat fs (resolvePath (ctx_path ctx))) as [s|e] eqn:Hstat.
    - destruct (after_stat_fulfilled fs resolvePath ctx s Hstat) as [Hs Hafter].
      split; [exact Hs|].
      destruct (response_cases fs (resolvePath (ctx_path ctx)) s ctx)
        as [(e & Hfails & Hr) | [(Hna & Hr) | [(Hunknown & Hr) | (r & Hr' & Hr)]]];
        rewrite Hr in Hafter; destruct Hafter as [-> ->].
      + destruct (codeIs e "ENOENT") eqn:Hcode.
        * apply codeIs_true in Hcode. apply (AnswerNotFound _ _ _ _ e); eauto.
        * apply codeIs_false in Hcode. apply (AnswerFailure _ _ _ _ e); eauto.
      + by apply (AnswerInapplicable _ _ _ _ s).
      + by apply (AnswerUnknownCommand _ _ _ _ s).
      + destruct r; try (by apply (AnswerEnvelope _ _ _ _ s)).
        by simpl in Hr'.
    - destruct (after_stat_rejected fs resolvePath ctx e Hstat) as (Hs & -> & ->).
      split; [exact Hs|].
      destruct (codeIs e "ENOENT") eqn:Hcode.
      + apply codeIs_true in Hcode. apply (AnswerNotFound _ _ _ _ e); eauto.
      + apply codeIs_false in Hcode. apply (AnswerFailure _ _ _ _ e); eauto. }
  split; [exact Hsettled|]. split; [exact Hanswer|].
  destruct Hanswer; auto.
Qed.

(** C8, as stated, fails on the name of the field: the stats envelope of a
    regular file has no field [isDirectory]; the derived flag is the field
    [dir]. *)
Lemma stats_envelope_has_no_isDirectory_field :
  stat Sample.fs (Sample.resolvePath "/a.txt") = Fulfilled Sample.fileStats /\
  StatsMethods.isFile Sample.fileStats = true /\
  exists r,
    ctx_body (after Sample.fs Sample.resolvePath
                (Sample.request "/a.txt" (QString "stat"))) = BodyObject (Stat r) /\
    stats r !! "isDirectory" = None /\
    stats r !! "dir" = Some (JSBoolean false).
Proof.
  split; [reflexivity|]. split; [reflexivity|].
  eexists. split; [reflexivity|]. split; vm_compute; reflexivity.
Qed.

(** C8, amended: for a regular file or a directory, [command=stat] is
    answered 200 with a stats envelope that holds the own properties of the
    stat result unchanged, plus a derived boolean field named [dir] that is
    true exactly when the path is a directory (so [dir] is false for a
    regular file). *)
Theorem stats_envelope_has_dir_flag
  (fs : FileSystem) (resolvePath : string -> string) (ctx : Context) (s : Stats) :
  stat fs (resolvePath (ctx_path ctx)) = Fulfilled s ->
  ctx_query_command ctx = QString "stat" ->
  StatsMethods.isFile s = true \/ StatsMethods.isDirectory s = true ->
  exists r,
    ctx_status (after fs resolvePath ctx) = 200 /\
    ctx_body (after fs resolvePath ctx) = BodyObject (Stat r) /\
    stats r !! "dir" = Some (JSBoolean (StatsMethods.isDirectory s)) /\
    (forall k, k <> "dir" -> stats r !! k = stats_own s !! k) /\
    (stats r !! "dir" = Some (JSBoolean true) <-> StatsMethods.isDirectory s = true) /\
    (StatsMethods.isFile s = true -> stats r !! "dir" = Some (JSBoolean false)).
Proof.
  intros Hstat Hq Htype.
  destruct (after_stat_fulfilled fs resolvePath ctx s Hstat) as [_ Hafter].
  rewrite generate_stat in Hafter by done.
  unfold statIfSupported in Hafter.
  assert (StatsMethods.isFile s || StatsMethods.isDirectory s = true) as Hsupp
      by (apply orb_true_iff; exact Htype).
  rewrite Hsupp in Hafter. simpl in Hafter. destruct Hafter as [Hstatus Hbody].
  eexists. split; [exact Hstatus|]. split; [exact Hbody|]. simpl.
  split; [apply lookup_insert_eq|].
  split; [intros k Hk; by apply lookup_insert_ne|].
  rewrite lookup_insert_eq. split.
  - split; [congruence | by intros ->].
  - intros Hfile. by rewrite (isFile_not_isDirectory s Hfile).
Qed.

Lemma stats_envelope_has_dir_flag_witness :
  exists r,
    ctx_body (after Sample.fs Sample.resolvePath
                (Sample.request "/docs" (QString "stat"))) = BodyObject (Stat r) /\
    stats r !! "dir" = Some (JSBoolean true) /\
    stats r !! "size" = Some (JSNumber 4096).
Proof.
  destruct (stats_envelope_has_dir_flag Sample.fs Sample.resolvePath
              (Sample.request "/docs" (QString "stat")) Sample.dirStats
              eq_refl eq_refl (or_intror eq_refl))
    as (r & _ & Hbody & Hdir & Hown & _).
  exists r. split; [exact Hbody|]. split; [exact Hdir|].
  rewrite Hown by discriminate. reflexivity.
Defined.

(** * Further properties of the router *)

(** ** What a run depends on *)

Section Dependence.

Variable resolvePath : string -> string.

Implicit Types (fs : FileSystem) (ctx : Context) (s : Stats) (e : JSError).

(** The read step is known from the way its promise settles. *)
Lemma generateResponse_eq fs fs' path s ctx ctx' :
  ctx = ctx' ->
  (generateResponse fs path s ctx).1 = (generateResponse fs' path s ctx').1 ->
  generateResponse fs path s ctx = generateResponse fs' path s ctx'.
Proof.
  intros <- H.
  rewrite (surjective_pairing (generateResponse fs path s ctx)).
  rewrite (surjective_pairing (generateResponse fs' path s ctx)).
  by rewrite H, !generateResponse_ctx.
Qed.

(** Only the [command] parameter of the context is read. *)
Lemma generateResponse_command fs path s ctx ctx' :
  ctx_query_command ctx = ctx_query_command ctx' ->
  (generateResponse fs path s ctx).1 = (generateResponse fs path s ctx').1.
Proof.
  intros Hq.
  destruct (command_cases (ctx_query_command ctx))
    as [Hc | [(c & Hc & Hc') | [Hc Hc']]].
  - rewrite !generate_no_command by congruence. reflexivity.
  - destruct Hc as [-> | [-> | [-> | ->]]].
    + by rewrite !generate_readfile by congruence.
    + by rewrite !generate_readdir by congruence.
    + by rewrite !generate_readdir_detailed by congruence.
    + by rewrite !generate_stat by congruence.
  - rewrite !generate_unknown; [by rewrite Hq | congruence | | done..].
    intros c Hknown. rewrite <- Hq. by apply Hc'.
Qed.

Lemma createRoutes_ext fs fs' ctx :
  stat fs (resolvePath (ctx_path ctx)) = stat fs' (resolvePath (ctx_path ctx)) ->
  (forall s, stat fs (resolvePath (ctx_path ctx)) = Fulfilled s ->
             (generateResponse fs (resolvePath (ctx_path ctx)) s ctx).1 =
             (generateResponse fs' (resolvePath (ctx_path ctx)) s ctx).1) ->
  createRoutes fs resolvePath ctx = createRoutes fs' resolvePath ctx.
Proof.
  intros Hstat Hresp.
  destruct (stat fs (resolvePath (ctx_path ctx))) as [s|e] eqn:Hs.
  - rewrite (createRoutes_stat_fulfilled fs resolvePath ctx s Hs).
    rewrite (createRoutes_stat_fulfilled fs' resolvePath ctx s) by done.
    by rewrite (Hresp s eq_refl).
  - rewrite (createRoutes_stat_rejected fs resolvePath ctx e Hs).
    by rewrite (createRoutes_stat_rejected fs' resolvePath ctx e).
Qed.

Lemma readIfFile_ext fs fs' path s :
  readFile fs path = readFile fs' path ->
  readIfFile fs path s = readIfFile fs' path s.
Proof. intros H. unfold readIfFile. by rewrite H. Qed.

Lemma readIfDir_names_ext fs fs' path s :
  readdir fs path = readdir fs' path ->
  readIfDir fs path s false = readIfDir fs' path s false.
Proof. intros H. unfold readIfDir. simpl. by rewrite H. Qed.

Lemma readIfDir_detailed_ext fs fs' path s :
  readdirWithFileTypes fs path = readdirWithFileTypes fs' path ->
  readIfDir fs path s true = readIfDir fs' path s true.
Proof. intros H. unfold readIfDir. simpl. by rewrite H. Qed.

Lemma inapplicable_no_envelope fs path s ctx :
  Inapplicable (ctx_query_command ctx) s ->
  (generateResponse fs path s ctx).1 = Fulfilled None.
Proof.
  intros [(Hq & Hf & Hd) | [(Hq & Hf) | [(Hq & Hd) | (Hq & Hf & Hd)]]].
  - rewrite generate_no_command by done.
    by rewrite readIfFile_other, readIfDir_other.
  - rewrite generate_readfile by done. by rewrite readIfFile_other.
  - destruct Hq as [Hq|Hq].
    + rewrite generate_readdir by done. by rewrite readIfDir_other.
    + rewrite generate_readdir_detailed by done. by rewrite readIfDir_other.
  - rewrite generate_stat by done. unfold statIfSupported. by rewrite Hf, Hd.
Qed.

(** The request fields of the context are never assigned. *)
Lemma createRoutes_request fs ctx :
  ctx_path (after fs resolvePath ctx) = ctx_path ctx /\
  ctx_query_command (after fs resolvePath ctx) = ctx_query_command ctx.
Proof.
  unfold after.
  destruct (stat fs (resolvePath (ctx_path ctx))) as [s|e] eqn:Hs.
  - rewrite (createRoutes_stat_fulfilled fs resolvePath ctx s Hs).
    destruct (generateResponse fs (resolvePath (ctx_path ctx)) s ctx).1
      as [[[ | | | ]|]|e]; try done.
    unfold caught. by destruct (codeIs e "ENOENT").
  - rewrite (createRoutes_stat_rejected fs resolvePath ctx e Hs).
    unfold caught. by destruct (codeIs e "ENOENT").
Qed.

End Dependence.

(** ** Listings *)

Lemma supported_names_sublist (dirents : list Dirent) :
  map itemName (supportedEntries dirents)
    `sublist_of` map itemName (map NameItem (map dirent_name dirents)).
Proof.
  unfold supportedEntries.
  induction dirents as [|d ds IH]; simpl; [constructor|].
  destruct (DirentMethods.isFile d || DirentMethods.isDirectory d); simpl.
  - by apply sublist_skip.
  - by apply sublist_cons.
Qed.

Lemma supported_length (dirents : list Dirent) :
  (length (supportedEntries dirents) <= length dirents)%nat /\
  (length (supportedEntries dirents) = length dirents <->
   forallb supported dirents = true).
Proof.
  unfold supportedEntries, supported. rewrite length_map.
  induction dirents as [|d ds [IHle IHeq]]; simpl; [done|].
  destruct (DirentMethods.isFile d || DirentMethods.isDirectory d); simpl.
  - split; [lia|]. rewrite <- IHeq. split; lia.
  - split; [lia|]. split; [lia | discriminate].
Qed.

(** ** The extras *)

(** X1: [command=readdir] on a directory is answered 200 with a directory
    envelope holding the names exactly as [fs.readdir] gave them, in order
    and unfiltered; on an existing path that is not a directory there is no
    envelope and the answer is 500 with no body assigned. *)
Theorem readdir_lists_the_names_unfiltered
  (fs : FileSystem) (resolvePath : string -> string) (ctx : Context) (s : Stats) :
  stat fs (resolvePath (ctx_path ctx)) = Fulfilled s ->
  ctx_query_command ctx = QString "readdir" ->
  (forall names : list string,
      StatsMethods.isDirectory s = true ->
      readdir fs (resolvePath (ctx_path ctx)) = Fulfilled names ->
      ctx_status (after fs resolvePath ctx) = 200 /\
      ctx_body (after fs resolvePath ctx) =
        BodyObject (Dir {| items := map NameItem names |})) /\
  (StatsMethods.isDirectory s = false ->
   (generateResponse fs (resolvePath (ctx_path ctx)) s ctx).1 = Fulfilled None /\
   ctx_status (after fs resolvePath ctx) = 500 /\
   ctx_body (after fs resolvePath ctx) = ctx_body ctx).
Proof.
  intros Hstat Hq.
  destruct (after_stat_fulfilled fs resolvePath ctx s Hstat) as [_ Hafter].
  rewrite generate_readdir in Hafter |- * by done.
  split.
  - intros names Hdir Hnames.
    rewrite readIfDir_names, Hnames in Hafter by done.
    exact Hafter.
  - intros Hdir. rewrite readIfDir_other in Hafter |- * by done.
    split; [reflexivity | exact Hafter].
Qed.

Lemma readdir_lists_the_names_unfiltered_witness :
  ctx_body (after Sample.fs Sample.resolvePath
              (Sample.request "/docs" (QString "readdir"))) =
    BodyObject (Dir {| items := map NameItem ["a.txt"; "latest"; "sub"; "ctl.sock"] |}) /\
  ctx_status (after Sample.fs Sample.resolvePath
                (Sample.request "/ctl.sock" (QString "readdir"))) = 500.
Proof.
  destruct (readdir_lists_the_names_unfiltered Sample.fs Sample.resolvePath
              (Sample.request "/docs" (QString "readdir")) Sample.dirStats
              eq_refl eq_refl) as (Hdir & _).
  destruct (readdir_lists_the_names_unfiltered Sample.fs Sample.resolvePath
              (Sample.request "/ctl.sock" (QString "readdir")) Sample.socketStats
              eq_refl eq_refl) as (_ & Hother).
  destruct (Hdir _ eq_refl eq_refl) as (_ & Hbody).
  destruct (Hother eq_refl) as (_ & Hstatus & _).
  split; [exact Hbody | exact Hstatus].
Defined.

(** X2: a repeated [command] parameter, which koa hands over as an array,
    is never one of the four commands, whatever its elements are: on an
    existing path it is answered 500 with [Unknown command ] followed by the
    elements joined by commas. *)
Theorem repeated_command_is_unknown
  (fs : FileSystem) (resolvePath : string -> string) (ctx : Context)
  (s : Stats) (l : list string) :
  stat fs (resolvePath (ctx_path ctx)) = Fulfilled s ->
  ctx_query_command ctx = QArray l ->
  ctx_status (after fs resolvePath ctx) = 500 /\
  ctx_body (after fs resolvePath ctx) =
    BodyText ("Unknown command " +:+ String.concat "," l).
Proof.
  intros Hstat Hq.
  destruct (after_stat_fulfilled fs resolvePath ctx s Hstat) as [_ Hafter].
  rewrite generate_unknown in Hafter.
  - rewrite Hq in Hafter. exact Hafter.
  - by rewrite Hq.
  - rewrite Hq. discriminate.
Qed.

Lemma repeated_command_is_unknown_witness :
  ctx_status (after Sample.fs Sample.resolvePath
                (Sample.request "/a.txt" (QArray ["readfile"; "readfile"]))) = 500 /\
  ctx_body (after Sample.fs Sample.resolvePath
              (Sample.request "/a.txt" (QArray ["readfile"; "readfile"]))) =
    BodyText "Unknown command readfile,readfile".
Proof.
  exact (repeated_command_is_unknown Sample.fs Sample.resolvePath
           (Sample.request "/a.txt" (QArray ["readfile"; "readfile"]))
           Sample.fileStats ["readfile"; "readfile"] eq_refl eq_refl).
Defined.

(** X3: after a successful stat, the read step ends without an envelope
    exactly when the command does not apply to the type of the path
    (readfile off a file, a listing off a directory, stat or no command on
    what is neither); the answer is then 500 with no body assigned.  A null
    response never stands for a failed read. *)
Theorem no_envelope_iff_inapplicable
  (fs : FileSystem) (resolvePath : string -> string) (ctx : Context) (s : Stats) :
  stat fs (resolvePath (ctx_path ctx)) = Fulfilled s ->
  ((generateResponse fs (resolvePath (ctx_path ctx)) s ctx).1 = Fulfilled None <->
   Inapplicable (ctx_query_command ctx) s) /\
  (Inapplicable (ctx_query_command ctx) s ->
   ctx_status (after fs resolvePath ctx) = 500 /\
   ctx_body (after fs resolvePath ctx) = ctx_body ctx).
Proof.
  intros Hstat. split; [split|].
  - intros Hnone.
    destruct (response_cases fs (resolvePath (ctx_path ctx)) s ctx)
      as [(e & _ & Hr) | [(Hna & _) | [(_ & Hr) | (r & _ & Hr)]]];
      [congruence | exact Hna | congruence | congruence].
  - apply inapplicable_no_envelope.
  - intros Hna.
    destruct (after_stat_fulfilled fs resolvePath ctx s Hstat) as [_ Hafter].
    rewrite (inapplicable_no_envelope fs _ s ctx Hna) in Hafter. exact Hafter.
Qed.

Lemma no_envelope_iff_inapplicable_witness :
  ctx_status (after Sample.fs Sample.resolvePath
                (Sample.request "/a.txt" (QString "readdir-detailed"))) = 500 /\
  ctx_body (after Sample.fs Sample.resolvePath
              (Sample.request "/a.txt" (QString "readdir-detailed"))) = BodyUndefined.
Proof.
  refine (proj2 (no_envelope_iff_inapplicable Sample.fs Sample.resolvePath
                   (Sample.request "/a.txt" (QString "readdir-detailed"))
                   Sample.fileStats eq_refl) _).
  right; right; left. split; [right|]; reflexivity.
Defined.

(** X4: the variant of the response follows the command.  After a
    successful stat, a response to readfile is a file envelope (and the path
    a file), one to readdir or readdir-detailed a directory envelope (and
    the path a directory), one to stat a stats envelope; without a command
    it is a file envelope on a file and a directory envelope on a
    directory; and it is the error envelope exactly for an unknown
    command. *)
Theorem envelope_type_follows_command
  (fs : FileSystem) (resolvePath : string -> string) (ctx : Context)
  (s : Stats) (r : ApiResponse) :
  stat fs (resolvePath (ctx_path ctx)) = Fulfilled s ->
  (generateResponse fs (resolvePath (ctx_path ctx)) s ctx).1 = Fulfilled (Some r) ->
  (ctx_query_command ctx = QString "readfile" ->
   type r = "file" /\ StatsMethods.isFile s = true) /\
  (ctx_query_command ctx = QString "readdir" \/
   ctx_query_command ctx = QString "readdir-detailed" ->
   type r = "dir" /\ StatsMethods.isDirectory s = true) /\
  (ctx_query_command ctx = QString "stat" ->
   type r = "stats" /\
   (StatsMethods.isFile s = true \/ StatsMethods.isDirectory s = true)) /\
  (truthy (ctx_query_command ctx) = false ->
   (type r = "file" /\ StatsMethods.isFile s = true) \/
   (type r = "dir" /\ StatsMethods.isDirectory s = true)) /\
  (type r = "error" <-> unknownCommand (ctx_query_command ctx)).
Proof.
  intros Hstat Hr.
  set (path := resolvePath (ctx_path ctx)) in *.
  assert (forall f, readIfFile fs path s = Fulfilled (Some f) ->
                    StatsMethods.isFile s = true) as Hfile.
  { intros f. unfold readIfFile. by destruct (StatsMethods.isFile s). }
  assert (forall detailed d, readIfDir fs path s detailed = Fulfilled (Some d) ->
                             StatsMethods.isDirectory s = true) as Hdir.
  { intros detailed d. unfold readIfDir. by destruct (StatsMethods.isDirectory s). }
  split; [|split; [|split; [|split]]].
  - intros Hq. rewrite generate_readfile in Hr by done.
    destruct (readIfFile fs path s) as [[f|]|e] eqn:Hf; simplify_eq/=.
    split; [reflexivity | by eapply Hfile].
  - intros [Hq|Hq];
      [rewrite generate_readdir in Hr by done
      | rewrite generate_readdir_detailed in Hr by done].
    + destruct (readIfDir fs path s false) as [[d|]|e] eqn:Hd; simplify_eq/=.
      split; [reflexivity | by eapply Hdir].
    + destruct (readIfDir fs path s true) as [[d|]|e] eqn:Hd; simplify_eq/=.
      split; [reflexivity | by eapply Hdir].
  - intros Hq. rewrite generate_stat in Hr by done.
    unfold statIfSupported in Hr.
    destruct (StatsMethods.isFile s) eqn:Hf;
      destruct (StatsMethods.isDirectory s) eqn:Hd; simplify_eq/=; auto.
  - intros Hq. rewrite generate_no_command in Hr by done.
    destruct (readIfFile fs path s) as [[f|]|e] eqn:Hf; simplify_eq/=.
    + left. split; [reflexivity | by eapply Hfile].
    + destruct (readIfDir fs path s false) as [[d|]|e] eqn:Hd; simplify_eq/=.
      right. split; [reflexivity | by eapply Hdir].
  - split.
    + intros Herror.
      destruct (response_cases fs path s ctx)
        as [(e & _ & Hr') | [(_ & Hr') | [(Hunknown & _) | (r' & Htype & Hr')]]];
        [congruence | congruence | exact Hunknown |].
      rewrite Hr in Hr'. by simplify_eq.
    + intros [Htruthy Hunknown].
      rewrite generate_unknown in Hr by done. by simplify_eq.
Qed.

Lemma envelope_type_follows_command_witness :
  type (Dir {| items := map NameItem (map dirent_name Sample.listing) |}) = "dir" /\
  StatsMethods.isDirectory Sample.dirStats = true.
Proof.
  exact (proj1 (proj2 (envelope_type_follows_command Sample.fs Sample.resolvePath
                         (Sample.request "/docs" (QString "readdir")) Sample.dirStats
                         (Dir {| items := map NameItem (map dirent_name Sample.listing) |})
                         eq_refl eq_refl))
               (or_introl eq_refl)).
Defined.

(** X5: a request touches the filesystem at the resolved path only: two
    filesystems that answer stat, readFile and both forms of readdir alike
    at [resolvePath ctx.path] give the same run, whatever they hold
    elsewhere. *)
Theorem only_the_resolved_path_is_read
  (fs fs' : FileSystem) (resolvePath : string -> string) (ctx : Context) :
  agreeAt fs fs' (resolvePath (ctx_path ctx)) ->
  createRoutes fs resolvePath ctx = createRoutes fs' resolvePath ctx.
Proof.
  intros (Hstat & Hfile & Hnames & Hdirents).
  apply createRoutes_ext; [exact Hstat|].
  intros s _.
  pose proof (readIfFile_ext fs fs' _ s Hfile) as Hf.
  pose proof (readIfDir_names_ext fs fs' _ s Hnames) as Hn.
  pose proof (readIfDir_detailed_ext fs fs' _ s Hdirents) as Hd.
  destruct (command_cases (ctx_query_command ctx))
    as [Hc | [(c & Hc & Hc') | [Hc Hc']]].
  - rewrite !generate_no_command by done. by rewrite Hf, Hn.
  - destruct Hc as [-> | [-> | [-> | ->]]].
    + rewrite !generate_readfile by done. by rewrite Hf.
    + rewrite !generate_readdir by done. by rewrite Hn.
    + rewrite !generate_readdir_detailed by done. by rewrite Hd.
    + by rewrite !generate_stat.
  - by rewrite !generate_unknown.
Qed.

Lemma only_the_resolved_path_is_read_witness :
  createRoutes Sample.fs Sample.resolvePath (Sample.request "/a.txt" QUndefined) =
  createRoutes Variant.onlyFile Sample.resolvePath (Sample.request "/a.txt" QUndefined).
Proof.
  apply (only_the_resolved_path_is_read Sample.fs Variant.onlyFile
           Sample.resolvePath (Sample.request "/a.txt" QUndefined)).
  repeat split; reflexivity.
Defined.

(** X6: nothing is read or listed unless the stat succeeded and the command
    applies to the type it reported.  When the stat is rejected, when the
    command is stat or unknown, or when the command does not apply to the
    type, the run is the same on any filesystem with the same stat result,
    even one where every read and listing fails. *)
Theorem stat_alone_decides
  (fs fs' : FileSystem) (resolvePath : string -> string) (ctx : Context) :
  stat fs (resolvePath (ctx_path ctx)) = stat fs' (resolvePath (ctx_path ctx)) ->
  (exists e, stat fs (resolvePath (ctx_path ctx)) = Rejected e) \/
  ctx_query_command ctx = QString "stat" \/
  unknownCommand (ctx_query_command ctx) \/
  (exists s, stat fs (resolvePath (ctx_path ctx)) = Fulfilled s /\
             Inapplicable (ctx_query_command ctx) s) ->
  createRoutes fs resolvePath ctx = createRoutes fs' resolvePath ctx.
Proof.
  intros Hstat Hcase. apply createRoutes_ext; [exact Hstat|].
  intros s Hs.
  destruct Hcase as [(e & He) | [Hq | [[Hq Hunknown] | (s' & Hs' & Hna)]]].
  - congruence.
  - by rewrite !generate_stat.
  - by rewrite !generate_unknown.
  - assert (s' = s) as -> by congruence.
    by rewrite !inapplicable_no_envelope.
Qed.

Lemma stat_alone_decides_witness :
  createRoutes Sample.fs Sample.resolvePath
    (Sample.request "/docs" (QString "stat")) =
  createRoutes Variant.unreadable Sample.resolvePath
    (Sample.request "/docs" (QString "stat")) /\
  createRoutes Sample.fs Sample.resolvePath
    (Sample.request "/docs" (QString "readfile")) =
  createRoutes Variant.unreadable Sample.resolvePath
    (Sample.request "/docs" (QString "readfile")).
Proof.
  split.
  - apply (stat_alone_decides Sample.fs Variant.unreadable Sample.resolvePath
             (Sample.request "/docs" (QString "stat")) eq_refl).
    right; left. reflexivity.
  - apply (stat_alone_decides Sample.fs Variant.unreadable Sample.resolvePath
             (Sample.request "/docs" (QString "readfile")) eq_refl).
    right; right; right. exists Sample.dirStats.
    split; [reflexivity|]. right; left. split; reflexivity.
Defined.

(** X7: each command makes at most its own call after the stat: readfile
    depends on the filesystem through stat and readFile only, readdir
    through stat and the plain readdir, readdir-detailed through stat and
    the typed readdir, and a request without a command through stat,
    readFile and the plain readdir, never the typed one. *)
Theorem each_command_makes_its_own_call
  (fs fs' : FileSystem) (resolvePath : string -> string) (ctx : Context) :
  stat fs (resolvePath (ctx_path ctx)) = stat fs' (resolvePath (ctx_path ctx)) ->
  (ctx_query_command ctx = QString "readfile" ->
   readFile fs (resolvePath (ctx_path ctx)) = readFile fs' (resolvePath (ctx_path ctx)) ->
   createRoutes fs resolvePath ctx = createRoutes fs' resolvePath ctx) /\
  (ctx_query_command ctx = QString "readdir" ->
   readdir fs (resolvePath (ctx_path ctx)) = readdir fs' (resolvePath (ctx_path ctx)) ->
   createRoutes fs resolvePath ctx = createRoutes fs' resolvePath ctx) /\
  (ctx_query_command ctx = QString "readdir-detailed" ->
   readdirWithFileTypes fs (resolvePath (ctx_path ctx)) =
   readdirWithFileTypes fs' (resolvePath (ctx_path ctx)) ->
   createRoutes fs resolvePath ctx = createRoutes fs' resolvePath ctx) /\
  (truthy (ctx_query_command ctx) = false ->
   readFile fs (resolvePath (ctx_path ctx)) = readFile fs' (resolvePath (ctx_path ctx)) ->
   readdir fs (resolvePath (ctx_path ctx)) = readdir fs' (resolvePath (ctx_path ctx)) ->
   createRoutes fs resolvePath ctx = createRoutes fs' resolvePath ctx).
Proof.
  intros Hstat.
  split; [|split; [|split]].
  - intros Hq Hread. apply createRoutes_ext; [exact Hstat|]. intros s _.
    rewrite !generate_readfile by done.
    by rewrite (readIfFile_ext fs fs' _ s Hread).
  - intros Hq Hread. apply createRoutes_ext; [exact Hstat|]. intros s _.
    rewrite !generate_readdir by done.
    by rewrite (readIfDir_names_ext fs fs' _ s Hread).
  - intros Hq Hread. apply createRoutes_ext; [exact Hstat|]. intros s _.
    rewrite !generate_readdir_detailed by done.
    by rewrite (readIfDir_detailed_ext fs fs' _ s Hread).
  - intros Hq Hfile Hnames. apply createRoutes_ext; [exact Hstat|]. intros s _.
    rewrite !generate_no_command by done.
    by rewrite (readIfFile_ext fs fs' _ s Hfile),
               (readIfDir_names_ext fs fs' _ s Hnames).
Qed.

Lemma each_command_makes_its_own_call_witness :
  createRoutes Sample.fs Sample.resolvePath
    (Sample.request "/a.txt" (QString "readfile")) =
  createRoutes Variant.unlistable Sample.resolvePath
    (Sample.request "/a.txt" (QString "readfile")).
Proof.
  exact (proj1 (each_command_makes_its_own_call Sample.fs Variant.unlistable
                  Sample.resolvePath (Sample.request "/a.txt" (QString "readfile"))
                  eq_refl) eq_refl eq_refl).
Defined.

(** X8: the answer does not depend on the status and body the context
    arrives with, and the request fields are never assigned.  Two contexts
    with the same path and command are settled alike and get the same
    status; their bodies are either both left as they came or both set to
    the same new value; path and command leave as they came. *)
Theorem answer_ignores_incoming_status
  (fs : FileSystem) (resolvePath : string -> string) (ctx ctx' : Context) :
  ctx_path ctx = ctx_path ctx' ->
  ctx_query_command ctx = ctx_query_command ctx' ->
  settlement fs resolvePath ctx = settlement fs resolvePath ctx' /\
  ctx_status (after fs resolvePath ctx) = ctx_status (after fs resolvePath ctx') /\
  ((ctx_body (after fs resolvePath ctx) = ctx_body ctx /\
    ctx_body (after fs resolvePath ctx') = ctx_body ctx') \/
   (ctx_body (after fs resolvePath ctx) = ctx_body (after fs resolvePath ctx') /\
    ctx_body (after fs resolvePath ctx) <> BodyUndefined)) /\
  ctx_path (after fs resolvePath ctx) = ctx_path ctx /\
  ctx_query_command (after fs resolvePath ctx) = ctx_query_command ctx.
Proof.
  intros Hpath Hq.
  destruct (createRoutes_request resolvePath fs ctx) as [Hp Hc].
  cut (settlement fs resolvePath ctx = settlement fs resolvePath ctx' /\
       ctx_status (after fs resolvePath ctx) = ctx_status (after fs resolvePath ctx') /\
       ((ctx_body (after fs resolvePath ctx) = ctx_body ctx /\
         ctx_body (after fs resolvePath ctx') = ctx_body ctx') \/
        (ctx_body (after fs resolvePath ctx) = ctx_body (after fs resolvePath ctx') /\
         ctx_body (after fs resolvePath ctx) <> BodyUndefined))).
  { intros (H1 & H2 & H3). auto. }
  destruct (stat fs (resolvePath (ctx_path ctx))) as [s|e] eqn:Hstat.
  - pose proof (after_stat_fulfilled fs resolvePath ctx s Hstat) as [Hs1 H1].
    assert (stat fs (resolvePath (ctx_path ctx')) = Fulfilled s) as Hstat'
        by (by rewrite <- Hpath).
    pose proof (after_stat_fulfilled fs resolvePath ctx' s Hstat') as [Hs2 H2].
    rewrite <- Hpath in H2.
    rewrite <- (generateResponse_command fs _ s ctx ctx' Hq) in H2.
    rewrite Hs1, Hs2. split; [reflexivity|].
    destruct (generateResponse fs (resolvePath (ctx_path ctx)) s ctx).1
      as [[r|]|e] eqn:Hr; destruct H1 as [-> Hb1], H2 as [-> Hb2];
      (split; [reflexivity|]); [|by left..].
    destruct (response_cases fs (resolvePath (ctx_path ctx)) s ctx)
      as [(e & _ & Hr') | [(_ & Hr') | [(_ & Hr') | (r' & Htype & Hr')]]];
      rewrite Hr in Hr'; simplify_eq; right; rewrite Hb1, Hb2; [by split|].
    destruct r'; by split.
  - pose proof (after_stat_rejected fs resolvePath ctx e Hstat) as (-> & -> & ->).
    assert (stat fs (resolvePath (ctx_path ctx')) = Rejected e) as Hstat'
        by (by rewrite <- Hpath).
    pose proof (after_stat_rejected fs resolvePath ctx' e Hstat') as (-> & -> & ->).
    split; [reflexivity|]. split; [reflexivity|]. by left.
Qed.

Lemma answer_ignores_incoming_status_witness :
  ctx_status (after Sample.fs Sample.resolvePath
                (Sample.request "/ctl.sock" (QString "stat"))) =
  ctx_status (after Sample.fs Sample.resolvePath
                (Variant.touched "/ctl.sock" (QString "stat"))).
Proof.
  exact (proj1 (proj2 (answer_ignores_incoming_status Sample.fs Sample.resolvePath
                         (Sample.request "/ctl.sock" (QString "stat"))
                         (Variant.touched "/ctl.sock" (QString "stat"))
                         eq_refl eq_refl))).
Defined.

(** X9: on a request that arrives without a body, the status is 200
    exactly when the body is an envelope object; such an object is the
    response of the read step and never the error envelope; and a 404 never
    carries a body. *)
Theorem status_200_iff_envelope
  (fs : FileSystem) (resolvePath : string -> string) (ctx : Context) :
  ctx_body ctx = BodyUndefined ->
  (ctx_status (after fs resolvePath ctx) = 200 <->
   exists r, ctx_body (after fs resolvePath ctx) = BodyObject r) /\
  (forall r, ctx_body (after fs resolvePath ctx) = BodyObject r ->
             type r <> "error" /\
             exists s, stat fs (resolvePath (ctx_path ctx)) = Fulfilled s /\
                       (generateResponse fs (resolvePath (ctx_path ctx)) s ctx).1 =
                       Fulfilled (Some r)) /\
  (ctx_status (after fs resolvePath ctx) = 404 ->
   ctx_body (after fs resolvePath ctx) = BodyUndefined).
Proof.
  intros Hbody.
  destruct (stat fs (resolvePath (ctx_path ctx))) as [s|e] eqn:Hstat.
  - destruct (after_stat_fulfilled fs resolvePath ctx s Hstat) as [_ Hafter].
    destruct (response_cases fs (resolvePath (ctx_path ctx)) s ctx)
      as [(e & _ & Hr) | [(_ & Hr) | [(_ & Hr) | (r & Htype & Hr)]]];
      rewrite Hr in Hafter; destruct Hafter as [Hstatus Hb];
      rewrite Hstatus, Hb, ?Hbody.
    + split; [|split]; [split | | done].
      * by destruct (codeIs e "ENOENT").
      * by intros [r ?].
      * done.
    + split; [|split]; [split | | done]; [done | by intros [r ?] | done].
    + simpl. split; [|split]; [split | | done]; [done | by intros [r ?] | done].
    + destruct r as [f|d|st|err]; try (by simpl in Htype).
      all: split; [|split]; [split | | done]; [by eexists | done |].
      all: intros r' [= <-]; split; [done|]; by exists s.
  - destruct (after_stat_rejected fs resolvePath ctx e Hstat) as (_ & Hstatus & Hb).
    rewrite Hstatus, Hb, Hbody.
    split; [|split]; [split | | done].
    + by destruct (codeIs e "ENOENT").
    + by intros [r ?].
    + done.
Qed.

Lemma status_200_iff_envelope_witness :
  exists r, ctx_body (after Sample.fs Sample.resolvePath
                        (Sample.request "/a.txt" QUndefined)) = BodyObject r.
Proof.
  apply (proj1 (status_200_iff_envelope Sample.fs Sample.resolvePath
                  (Sample.request "/a.txt" QUndefined) eq_refl)).
  reflexivity.
Defined.

(** X10: on a directory whose plain listing names the entries of its typed
    listing, the items of [readdir-detailed] carry a sublist of the names
    that [readdir] returns, in the same order; there are never more of
    them, and as many exactly when every entry is a file or a directory. *)
Theorem detailed_listing_filters_the_plain_one
  (fs : FileSystem) (resolvePath : string -> string) (ctx : Context)
  (s : Stats) (dirents : list Dirent) :
  stat fs (resolvePath (ctx_path ctx)) = Fulfilled s ->
  StatsMethods.isDirectory s = true ->
  readdirWithFileTypes fs (resolvePath (ctx_path ctx)) = Fulfilled dirents ->
  readdir fs (resolvePath (ctx_path ctx)) = Fulfilled (map dirent_name dirents) ->
  exists plain detailed,
    ctx_body (after fs resolvePath (withCommand ctx (QString "readdir"))) =
      BodyObject (Dir {| items := plain |}) /\
    ctx_body (after fs resolvePath (withCommand ctx (QString "readdir-detailed"))) =
      BodyObject (Dir {| items := detailed |}) /\
    map itemName plain = map dirent_name dirents /\
    map itemName detailed `sublist_of` map itemName plain /\
    (length detailed <= length plain)%nat /\
    (length detailed = length plain <-> forallb supported dirents = true).
Proof.
  intros Hstat Hdir Htyped Hplain.
  destruct (after_stat_fulfilled fs resolvePath
              (withCommand ctx (QString "readdir")) s Hstat) as [_ H1].
  destruct (after_stat_fulfilled fs resolvePath
              (withCommand ctx (QString "readdir-detailed")) s Hstat) as [_ H2].
  simpl ctx_path in H1, H2.
  rewrite generate_readdir in H1 by done.
  rewrite generate_readdir_detailed in H2 by done.
  rewrite readIfDir_names, Hplain in H1 by done.
  rewrite readIfDir_detailed, Htyped in H2 by done.
  destruct H1 as [_ H1], H2 as [_ H2].
  exists (map NameItem (map dirent_name dirents)), (supportedEntries dirents).
  split; [exact H1|]. split; [exact H2|].
  split; [rewrite map_map; simpl; apply map_id|].
  split; [apply supported_names_sublist|].
  rewrite !length_map. apply supported_length.
Qed.

Lemma detailed_listing_filters_the_plain_one_witness :
  exists plain detailed,
    ctx_body (after Sample.fs Sample.resolvePath
                (withCommand (Sample.request "/docs" QUndefined) (QString "readdir"))) =
      BodyObject (Dir {| items := plain |}) /\
    ctx_body (after Sample.fs Sample.resolvePath
                (withCommand (Sample.request "/docs" QUndefined)
                             (QString "readdir-detailed"))) =
      BodyObject (Dir {| items := detailed |}) /\
    map itemName detailed `sublist_of` map itemName plain.
Proof.
  destruct (detailed_listing_filters_the_plain_one Sample.fs Sample.resolvePath
              (Sample.request "/docs" QUndefined) Sample.dirStats Sample.listing
              eq_refl eq_refl eq_refl eq_refl)
    as (plain & detailed & H1 & H2 & _ & Hsub & _).
  exists plain, detailed. split; [exact H1|]. split; [exact H2 | exact Hsub].
Defined.

(** X11: the read step is rejected with an error exactly when the one call
    the command selects for the type of the path is rejected with that
    error: readers pass errors on unchanged, and a call that is not made
    (readFile off a file, a listing off a directory, any call for stat or an
    unknown command) cannot fail the request. *)
Theorem read_step_rejects_iff
  (fs : FileSystem) (path : string) (s : Stats) (ctx : Context) (e : JSError) :
  (generateResponse fs path s ctx).1 = Rejected e <->
  ReadStepFails fs path s (ctx_query_command ctx) e.
Proof.
  split; [apply rejected_readStep | apply readStep_rejects].
Qed.
